(** * DIP video exercises: contrast adjustment and gradual rotation

    A shallow embedding of the two scripts
      - [KenCinco-FinalExer1/KenCinco_Exer1.py]  ([process_video] and the
        two calls at the end of the file)
      - [KenCinco-FinalExer3/KenCinco_Exer3.py]  ([apply_gradual_rotation],
        [create_test_video] and the main block)
    together with the properties their specification states.

    Numeric conventions.  Python and NumPy floating-point values are
    embedded as real numbers ([R]): every float operation is read as the
    exact operation it approximates.  Integers are [Z]; Python's [//] and
    [%] on integers are [Z.div] and [Z.modulo] (both floor towards minus
    infinity, sign of the divisor).  A division whose divisor is the
    Python integer 0 raises [ZeroDivisionError]; this is kept explicit. *)

From Stdlib Require Import String Ascii Bool Arith ZArith List Reals Lra Lia.
Import ListNotations.

Local Open Scope R_scope.

(* ================================================================== *)
(** * Arrays and the NumPy operations used by the scripts              *)
(* ================================================================== *)

Module Numpy.

(** A 2-D array is a list of rows. *)
Definition Array2 (A : Type) : Type := list (list A).

(** 8-bit single-channel frame ([gray], [adjusted]). *)
Definition GrayFrame : Type := Array2 Z.

(** Floating-point array ([gray.astype(np.float32)] and what follows). *)
Definition FloatArray : Type := Array2 R.

(** Elementwise application, the shape of every broadcast operation. *)
Definition elementwise {A B : Type} (f : A -> B) (a : Array2 A) : Array2 B :=
  map (map f) a.


(** [a.size]: number of elements. *)
Definition size {A : Type} (a : Array2 A) : nat := length (concat a).

(** [np.sum(a)] over every element. *)
Definition sum (a : GrayFrame) : Z := fold_right Z.add 0%Z (concat a).

(** [np.mean(a)]: sum of all samples over their number. *)
Definition mean (a : GrayFrame) : R := IZR (sum a) / INR (size a).

(** [a.astype(np.float32)] on 8-bit samples: exact. *)
Definition astype_float32 (a : GrayFrame) : FloatArray := elementwise IZR a.

(** [a - c], [c * a], [a + c] with a scalar [c]. *)
Definition sub_scalar (a : FloatArray) (c : R) : FloatArray :=
  elementwise (fun x => x - c) a.
Definition scalar_mul (c : R) (a : FloatArray) : FloatArray :=
  elementwise (fun x => c * x) a.
Definition add_scalar (a : FloatArray) (c : R) : FloatArray :=
  elementwise (fun x => x + c) a.

(** [np.clip(a, lo, hi)] is [minimum(maximum(a, lo), hi)]. *)
Definition clip (a : FloatArray) (lo hi : R) : FloatArray :=
  elementwise (fun x => Rmin (Rmax x lo) hi) a.

(** Float to integer conversion truncates towards zero. *)
Definition trunc (x : R) : Z :=
  if Rle_dec 0 x then Zfloor x else Zceil x.

(** [a.astype(np.uint8)]: truncate, keep the low 8 bits. *)
Definition uint8_of_float (x : R) : Z := (trunc x mod 256)%Z.
Definition astype_uint8 (a : FloatArray) : GrayFrame :=
  elementwise uint8_of_float a.

(** Python's float [%]: the result has the sign of the divisor. *)
Definition fmod (x y : R) : R := x - y * IZR (Zfloor (x / y)).

(** A frame whose samples are 8-bit values. *)
Definition is_uint8 (s : Z) : Prop := (0 <= s <= 255)%Z.
Definition uint8_frame (a : GrayFrame) : Prop :=
  Forall (Forall is_uint8) a.

End Numpy.

(* ================================================================== *)
(** * Exercise 1: the contrast adjuster                                *)
(* ================================================================== *)

Module Contrast.
Import Numpy.

(** Lines 34-40 of [process_video]: the contrast factor. *)
Definition contrast_alpha (contrast_mode : string) (progress : R) : R :=
  if String.eqb contrast_mode "linear" then
    0.8 + (1.5 - 0.8) * progress
  else if String.eqb contrast_mode "sine" then
    1.15 + 0.35 * sin (2 * PI * progress * 2)
  else
    1.0.

(** Lines 42-45 of [process_video]: the stretch around the mean. *)
Definition apply_contrast (alpha : R) (gray : GrayFrame) : GrayFrame :=
  let mean := Numpy.mean gray in
  let adjusted :=
    add_scalar (scalar_mul alpha (sub_scalar (astype_float32 gray) mean)) mean in
  astype_uint8 (clip adjusted 0 255).

(** Lines 34-45: what one loop iteration does to the grayscale frame. *)
Definition adjust_frame (contrast_mode : string) (progress : R)
                        (gray : GrayFrame) : GrayFrame :=
  apply_contrast (contrast_alpha contrast_mode progress) gray.

(** ** The specification's wording of the same transform *)

(** [clamp(x, lo, hi)]. *)
Definition clamp (x lo hi : R) : R :=
  if Rlt_dec x lo then lo else if Rlt_dec hi x then hi else x.

(** The integer part of a non-negative value, as an 8-bit sample. *)
Definition spec_sample (alpha m : R) (s : Z) : Z :=
  Zfloor (clamp (alpha * (IZR s - m) + m) 0 255).

(** Every sample is mapped through [spec_sample] with the frame's own mean. *)
Definition spec_contrast (alpha : R) (gray : GrayFrame) : GrayFrame :=
  map (map (spec_sample alpha (Numpy.mean gray))) gray.

End Contrast.

(* ================================================================== *)
(** * The OpenCV collaborators: frames, matrices, sources and sinks    *)
(* ================================================================== *)

Module Cv2.
Import Numpy.

(** A BGR pixel and a 3-channel frame, as [cap.read()] delivers it. *)
Definition Pixel : Type := (Z * Z * Z)%type.
Definition ColorFrame : Type := Array2 Pixel.

(** What a writer is handed: a single-channel or a 3-channel image. *)
Inductive Frame : Type :=
| Gray (g : GrayFrame)
| Color (c : ColorFrame).

Definition is_gray (f : Frame) : Prop :=
  match f with Gray _ => True | Color _ => False end.

(** An image has width [w] and height [h]: [h] rows of [w] samples. *)
Definition frame_dims {A : Type} (a : Array2 A) (w h : Z) : Prop :=
  (0 <= w)%Z /\
  Z.of_nat (length a) = h /\
  Forall (fun row => Z.of_nat (length row) = w) a.

(** The 2x3 matrix of an affine map. *)
Definition Matrix : Type := ((R * R * R) * (R * R * R))%type.

Definition identity_matrix : Matrix := ((1, 0, 0), (0, 1, 0)).

(** Image of the point [(x, y)] under the affine map [M]. *)
Definition affine (M : Matrix) (p : R * R) : R * R :=
  let '((m11, m12, m13), (m21, m22, m23)) := M in
  let '(x, y) := p in
  (m11 * x + m12 * y + m13, m21 * x + m22 * y + m23).

(** [cv2.getRotationMatrix2D(center, angle, scale)], angle in degrees:
    alpha = scale cos(angle), beta = scale sin(angle),
      [ alpha  beta  (1 - alpha) cx - beta cy ]
      [ -beta  alpha beta cx + (1 - alpha) cy ]. *)
Definition getRotationMatrix2D (center : Z * Z) (angle scale : R) : Matrix :=
  let a := scale * cos (angle * PI / 180) in
  let b := scale * sin (angle * PI / 180) in
  let cx := IZR (fst center) in
  let cy := IZR (snd center) in
  ((a, b, (1 - a) * cx - b * cy), (- b, a, b * cx + (1 - a) * cy)).

(** The image-processing primitives the scripts call and do not define:
    the BGR to gray conversion of one pixel (so that
    [cv2.cvtColor(frame, cv2.COLOR_BGR2GRAY)] is its elementwise
    application) and [cv2.warpAffine(src, M, dsize)]. *)
Record Imgproc : Type := {
  gray_of_bgr : Pixel -> Z;
  warpAffine : ColorFrame -> Matrix -> Z * Z -> ColorFrame
}.

Definition cvtColor_BGR2GRAY (cv : Imgproc) (frame : ColorFrame) : GrayFrame :=
  elementwise (gray_of_bgr cv) frame.

(** What the scripts rely on from [cv2.warpAffine]: the output has the
    requested size, and the identity map resamples a frame of that size
    to itself. *)
Record ImgprocContract (cv : Imgproc) : Prop := {
  warpAffine_dsize :
    forall src M w h, (0 <= w)%Z -> (0 <= h)%Z ->
      frame_dims (warpAffine cv src M (w, h)) w h;
  warpAffine_identity :
    forall src w h, frame_dims src w h ->
      warpAffine cv src identity_matrix (w, h) = src
}.

(** Python's [range(n)]: 0, 1, ..., n - 1, empty when [n <= 0]. *)
Definition range (n : Z) : list Z := map Z.of_nat (seq 0 (Z.to_nat n)).

(** ** A reference resampler: inverse mapping, bilinear, constant border *)

Definition black : Pixel := (0, 0, 0)%Z.

Definition pixel_at (src : ColorFrame) (x y : Z) : Pixel :=
  if ((0 <=? x) && (0 <=? y))%Z
  then nth (Z.to_nat x) (nth (Z.to_nat y) src []) black
  else black.

Definition invertAffineTransform (M : Matrix) : Matrix :=
  let '((m11, m12, m13), (m21, m22, m23)) := M in
  let d := m11 * m22 - m12 * m21 in
  let d := if Req_dec_T d 0 then 0 else 1 / d in
  let a11 := m22 * d in
  let a22 := m11 * d in
  let a12 := - m12 * d in
  let a21 := - m21 * d in
  ((a11, a12, - a11 * m13 - a12 * m23), (a21, a22, - a21 * m13 - a22 * m23)).

Definition round (x : R) : Z := Zfloor (x + 1 / 2).

Definition blend (a b : R) (p00 p10 p01 p11 : Z) : Z :=
  round ((1 - a) * (1 - b) * IZR p00 + a * (1 - b) * IZR p10
         + (1 - a) * b * IZR p01 + a * b * IZR p11).

Definition blend_pixel (a b : R) (p00 p10 p01 p11 : Pixel) : Pixel :=
  let '(b00, g00, r00) := p00 in
  let '(b10, g10, r10) := p10 in
  let '(b01, g01, r01) := p01 in
  let '(b11, g11, r11) := p11 in
  (blend a b b00 b10 b01 b11, blend a b g00 g10 g01 g11,
   blend a b r00 r10 r01 r11).

Definition sample_bilinear (src : ColorFrame) (p : R * R) : Pixel :=
  let '(u, v) := p in
  let x0 := Zfloor u in
  let y0 := Zfloor v in
  blend_pixel (u - IZR x0) (v - IZR y0)
    (pixel_at src x0 y0) (pixel_at src (x0 + 1) y0)
    (pixel_at src x0 (y0 + 1)) (pixel_at src (x0 + 1) (y0 + 1)).

Definition warpAffine_bilinear (src : ColorFrame) (M : Matrix)
                               (dsize : Z * Z) : ColorFrame :=
  let inv := invertAffineTransform M in
  map (fun y =>
         map (fun x => sample_bilinear src (affine inv (IZR x, IZR y)))
             (range (fst dsize)))
      (range (snd dsize)).

(** ITU-R BT.601 luma in 14-bit fixed point. *)
Definition luma_bt601 (p : Pixel) : Z :=
  let '(b, g, r) := p in
  ((b * 1868 + g * 9617 + r * 4899 + 8192) / 16384)%Z.

Definition reference_imgproc : Imgproc :=
  {| gray_of_bgr := luma_bt601; warpAffine := warpAffine_bilinear |}.

(** ** Video files, the environment, and the objects of a run *)

Inductive Fourcc : Type := mp4v | XVID.

(** A readable video: its reported properties and its frames. *)
Record Video : Type := {
  video_fps : R;
  video_width : Z;
  video_height : Z;
  video_frame_count : Z;
  video_frames : list ColorFrame
}.

(** The outside of a run: which paths hold a readable video, and for
    which path and codec a writer can be opened. *)
Record Env : Type := {
  env_source : string -> option Video;
  env_sink : string -> Fourcc -> bool
}.

(** A [cv2.VideoCapture] object. *)
Record Capture : Type := {
  cap_opened : bool;
  cap_fps : R;
  cap_width : Z;
  cap_height : Z;
  cap_frame_count : Z;
  cap_pending : list ColorFrame
}.

(** A [cv2.VideoWriter] object; [wr_written] is what reached the file. *)
Record Writer : Type := {
  wr_path : string;
  wr_fourcc : Fourcc;
  wr_fps : R;
  wr_size : Z * Z;
  wr_isColor : bool;
  wr_opened : bool;
  wr_written : list Frame
}.

(** The lines the scripts print. *)
Inductive Msg : Type :=
| Msg_could_not_open_video (input_path : string)
| Msg_finished (contrast_mode output_path : string)
| Msg_cannot_open (input_path : string)
| Msg_video_info (width height : Z) (fps : R) (total_frames : Z)
| Msg_trying_xvid
| Msg_no_codec
| Msg_processing (frame_idx total_frames : Z) (percent angle scale : R)
| Msg_saved_normal (output_path : string)
| Msg_saved_scaled (output_path : string).

(** Every object created during a run, in creation order, and the
    printed lines, oldest first. *)
Record World : Type := {
  captures : list Capture;
  writers : list Writer;
  stdout : list Msg
}.

Definition empty_world : World :=
  {| captures := []; writers := []; stdout := [] |}.

(** A handle is acquired while its object is open. *)
Definition all_released (w : World) : Prop :=
  Forall (fun c => cap_opened c = false) (captures w) /\
  Forall (fun o => wr_opened o = false) (writers w).

End Cv2.

(* ================================================================== *)
(** * Python statements as state-and-exception computations            *)
(* ================================================================== *)

Module Py.
Import Numpy Cv2.

Inductive Exn : Type := ZeroDivisionError.

Inductive Outcome (A : Type) : Type :=
| Returned (a : A)
| Raised (e : Exn)
| OutOfFuel.
Arguments Returned {A} a.
Arguments Raised {A} e.
Arguments OutOfFuel {A}.

Definition M (A : Type) : Type := World -> Outcome A * World.

Definition ret {A : Type} (a : A) : M A := fun w => (Returned a, w).

Definition bind {A B : Type} (c : M A) (k : A -> M B) : M B :=
  fun w =>
    match c w with
    | (Returned a, w') => k a w'
    | (Raised e, w') => (Raised e, w')
    | (OutOfFuel, w') => (OutOfFuel, w')
    end.

Definition raise {A : Type} (e : Exn) : M A := fun w => (Raised e, w).

Definition out_of_fuel {A : Type} : M A := fun w => (OutOfFuel, w).

Declare Scope py_scope.
Delimit Scope py_scope with py.
Notation "x <- c ;; k" := (bind c (fun x => k))
  (at level 61, c at next level, right associativity) : py_scope.
Notation "c ;; k" := (bind c (fun _ => k))
  (at level 61, right associativity) : py_scope.

Local Open Scope py_scope.

(** ** Arithmetic that can raise *)

(** [a / b] on Python integers. *)
Definition truediv (a b : Z) : M R :=
  if (b =? 0)%Z then raise ZeroDivisionError else ret (IZR a / IZR b).

(** [a % b] on Python integers. *)
Definition modulo (a b : Z) : M Z :=
  if (b =? 0)%Z then raise ZeroDivisionError else ret (a mod b)%Z.

(** [s.replace(old, new)] for a non-empty [old]: every non-overlapping
    occurrence, left to right.  [skip] counts the characters of a
    matched occurrence still to be dropped. *)
Fixpoint replace_from (old new : string) (skip : nat) (s : string) : string :=
  match s with
  | EmptyString => EmptyString
  | String c rest =>
      match skip with
      | S k => replace_from old new k rest
      | O =>
          if String.prefix old s
          then String.append new
                 (replace_from old new (String.length old - 1) rest)
          else String c (replace_from old new 0 rest)
      end
  end.

Definition replace (s old new : string) : string := replace_from old new 0 s.

(** ** The objects' methods *)

Definition update {A : Type} (i : nat) (f : A -> A) (l : list A) : list A :=
  firstn i l ++ match nth_error l i with
                | Some x => f x :: skipn (S i) l
                | None => []
                end.

Definition closed_capture : Capture :=
  {| cap_opened := false; cap_fps := 0; cap_width := 0; cap_height := 0;
     cap_frame_count := 0; cap_pending := [] |}.

Definition open_capture (v : Video) : Capture :=
  {| cap_opened := true; cap_fps := video_fps v;
     cap_width := video_width v; cap_height := video_height v;
     cap_frame_count := video_frame_count v;
     cap_pending := video_frames v |}.

(** [cv2.VideoCapture(path)]. *)
Definition VideoCapture (env : Env) (path : string) : M nat :=
  fun w =>
    let c := match env_source env path with
             | Some v => open_capture v
             | None => closed_capture
             end in
    (Returned (length (captures w)),
     {| captures := captures w ++ [c]; writers := writers w;
        stdout := stdout w |}).

Definition the_capture (w : World) (cap : nat) : Capture :=
  nth cap (captures w) closed_capture.

Definition with_captures (w : World) (cs : list Capture) : World :=
  {| captures := cs; writers := writers w; stdout := stdout w |}.

Definition with_writers (w : World) (ws : list Writer) : World :=
  {| captures := captures w; writers := ws; stdout := stdout w |}.

(** [cap.isOpened()]. *)
Definition cap_isOpened (cap : nat) : M bool :=
  fun w => (Returned (cap_opened (the_capture w cap)), w).

(** [cap.get(cv2.CAP_PROP_FPS)] and [int(cap.get(...))] for the rest. *)
Definition cap_get_fps (cap : nat) : M R :=
  fun w => (Returned (cap_fps (the_capture w cap)), w).
Definition cap_get_width (cap : nat) : M Z :=
  fun w => (Returned (cap_width (the_capture w cap)), w).
Definition cap_get_height (cap : nat) : M Z :=
  fun w => (Returned (cap_height (the_capture w cap)), w).
Definition cap_get_frame_count (cap : nat) : M Z :=
  fun w => (Returned (cap_frame_count (the_capture w cap)), w).

(** [ret, frame = cap.read()]: [None] stands for [ret == False]. *)
Definition cap_read (cap : nat) : M (option ColorFrame) :=
  fun w =>
    let c := the_capture w cap in
    if cap_opened c then
      match cap_pending c with
      | frame :: rest =>
          (Returned (Some frame),
           with_captures w
             (update cap (fun c =>
                {| cap_opened := cap_opened c; cap_fps := cap_fps c;
                   cap_width := cap_width c; cap_height := cap_height c;
                   cap_frame_count := cap_frame_count c;
                   cap_pending := rest |}) (captures w)))
      | [] => (Returned None, w)
      end
    else (Returned None, w).

(** [cap.release()]. *)
Definition cap_release (cap : nat) : M unit :=
  fun w =>
    (Returned tt,
     with_captures w
       (update cap (fun c =>
          {| cap_opened := false; cap_fps := cap_fps c;
             cap_width := cap_width c; cap_height := cap_height c;
             cap_frame_count := cap_frame_count c;
             cap_pending := cap_pending c |}) (captures w))).

(** Number of frames the source can still deliver: the bound of the
    [while] loop of [process_video]. *)
Definition cap_remaining (cap : nat) : M nat :=
  fun w => (Returned (length (cap_pending (the_capture w cap))), w).

Definition closed_writer : Writer :=
  {| wr_path := ""; wr_fourcc := mp4v; wr_fps := 0; wr_size := (0, 0)%Z;
     wr_isColor := true; wr_opened := false; wr_written := [] |}.

Definition the_writer (w : World) (out : nat) : Writer :=
  nth out (writers w) closed_writer.

(** [cv2.VideoWriter(path, fourcc, fps, size, isColor)]. *)
Definition VideoWriter (env : Env) (path : string) (fourcc : Fourcc)
                       (fps : R) (size : Z * Z) (isColor : bool) : M nat :=
  fun w =>
    let o := {| wr_path := path; wr_fourcc := fourcc; wr_fps := fps;
                wr_size := size; wr_isColor := isColor;
                wr_opened := env_sink env path fourcc;
                wr_written := [] |} in
    (Returned (length (writers w)), with_writers w (writers w ++ [o])).

(** [out.isOpened()]. *)
Definition writer_isOpened (out : nat) : M bool :=
  fun w => (Returned (wr_opened (the_writer w out)), w).

(** [out.write(frame)]: a writer that is not open drops the frame. *)
Definition writer_write (out : nat) (frame : Frame) : M unit :=
  fun w =>
    (Returned tt,
     with_writers w
       (update out (fun o =>
          {| wr_path := wr_path o; wr_fourcc := wr_fourcc o;
             wr_fps := wr_fps o; wr_size := wr_size o;
             wr_isColor := wr_isColor o; wr_opened := wr_opened o;
             wr_written := if wr_opened o
                           then wr_written o ++ [frame]
                           else wr_written o |}) (writers w))).

(** [out.release()]. *)
Definition writer_release (out : nat) : M unit :=
  fun w =>
    (Returned tt,
     with_writers w
       (update out (fun o =>
          {| wr_path := wr_path o; wr_fourcc := wr_fourcc o;
             wr_fps := wr_fps o; wr_size := wr_size o;
             wr_isColor := wr_isColor o; wr_opened := false;
             wr_written := wr_written o |}) (writers w))).

(** [print(...)]. *)
Definition print (m : Msg) : M unit :=
  fun w =>
    (Returned tt,
     {| captures := captures w; writers := writers w;
        stdout := stdout w ++ [m] |}).

End Py.

(* ================================================================== *)
(** * Exercise 1: [process_video]                                      *)
(* ================================================================== *)

Module Exer1.
Import Numpy Cv2 Py Contrast.
Local Open Scope py_scope.

(** Lines 23-50: the [while cap.isOpened()] loop.  [fuel] bounds the
    number of iterations; [process_video] supplies one more than the
    number of frames the source still holds. *)
Fixpoint frame_loop (fuel : nat) (cv : Imgproc) (cap out : nat)
                    (contrast_mode : string) (total_frames frame_idx : Z)
                    : M unit :=
  match fuel with
  | O => out_of_fuel
  | S fuel' =>
      opened <- cap_isOpened cap ;;
      if negb opened then ret tt
      else
        r <- cap_read cap ;;
        match r with
        | None => ret tt
        | Some frame =>
            let gray := cvtColor_BGR2GRAY cv frame in
            progress <- truediv frame_idx total_frames ;;
            let adjusted := adjust_frame contrast_mode progress gray in
            writer_write out (Gray adjusted) ;;
            frame_loop fuel' cv cap out contrast_mode total_frames
                       (frame_idx + 1)
        end
  end.

(** [process_video(input_path, output_path, contrast_mode)]. *)
Definition process_video (env : Env) (cv : Imgproc)
                         (input_path output_path contrast_mode : string)
                         : M unit :=
  cap <- VideoCapture env input_path ;;
  opened <- cap_isOpened cap ;;
  if negb opened then
    print (Msg_could_not_open_video input_path)
  else
    fps <- cap_get_fps cap ;;
    width <- cap_get_width cap ;;
    height <- cap_get_height cap ;;
    total_frames <- cap_get_frame_count cap ;;
    out <- VideoWriter env output_path mp4v fps (width, height) false ;;
    pending <- cap_remaining cap ;;
    frame_loop (S pending) cv cap out contrast_mode total_frames 0 ;;
    cap_release cap ;;
    writer_release out ;;
    print (Msg_finished contrast_mode output_path).

Definition run (env : Env) (cv : Imgproc)
               (input_path output_path contrast_mode : string)
               : Outcome unit * World :=
  process_video env cv input_path output_path contrast_mode empty_world.

End Exer1.

(* ================================================================== *)
(** * Exercise 3: [apply_gradual_rotation]                             *)
(* ================================================================== *)

Module Exer3.
Import Numpy Cv2 Py.
Local Open Scope py_scope.

(** Line 111: [frame_idx / (total_frames - 1) if total_frames > 1 else 0]. *)
Definition progress_of (frame_idx total_frames : Z) : M R :=
  if (total_frames >? 1)%Z then truediv frame_idx (total_frames - 1)
  else ret 0.

(** Lines 126-137: the factor that shrinks the rotated frame to fit. *)
Definition scaling_factor_of (width height : Z) (current_angle : R) : R :=
  let angle_rad := Rabs (current_angle * PI / 180) in
  if Req_dec_T (fmod current_angle 90) 0 then 1.0
  else
    let cos_angle := Rabs (cos angle_rad) in
    let sin_angle := Rabs (sin angle_rad) in
    let new_width := IZR width * cos_angle + IZR height * sin_angle in
    let new_height := IZR width * sin_angle + IZR height * cos_angle in
    Rmin (IZR width / new_width) (IZR height / new_height).

(** Lines 116-119: the normal variant of one frame. *)
Definition rotate_normal (cv : Imgproc) (width height : Z)
                         (current_angle : R) (frame : ColorFrame)
                         : ColorFrame :=
  let center := (width / 2, height / 2)%Z in
  let rotation_matrix := getRotationMatrix2D center current_angle 1.0 in
  warpAffine cv frame rotation_matrix (width, height).

(** Lines 126-143: the scaled variant of one frame. *)
Definition rotate_scaled (cv : Imgproc) (width height : Z)
                         (current_angle : R) (frame : ColorFrame)
                         : ColorFrame :=
  let center := (width / 2, height / 2)%Z in
  let scaling_factor := scaling_factor_of width height current_angle in
  let rotation_scale_matrix :=
    getRotationMatrix2D center current_angle scaling_factor in
  warpAffine cv frame rotation_scale_matrix (width, height).

(** Lines 105-151: the [for frame_idx in range(total_frames)] loop. *)
Fixpoint frame_loop (cv : Imgproc) (cap out_normal out_scaled : nat)
                    (final_angle : R) (width height total_frames : Z)
                    (indices : list Z) : M unit :=
  match indices with
  | [] => ret tt
  | frame_idx :: rest =>
      r <- cap_read cap ;;
      match r with
      | None => ret tt
      | Some frame =>
          progress <- progress_of frame_idx total_frames ;;
          let current_angle := final_angle * progress in
          writer_write out_normal
            (Color (rotate_normal cv width height current_angle frame)) ;;
          writer_write out_scaled
            (Color (rotate_scaled cv width height current_angle frame)) ;;
          m <- modulo frame_idx (Z.max 1 (total_frames / 10)) ;;
          (if (m =? 0)%Z then
             fraction <- truediv frame_idx total_frames ;;
             print (Msg_processing frame_idx total_frames (fraction * 100)
                      current_angle
                      (scaling_factor_of width height current_angle))
           else ret tt) ;;
          frame_loop cv cap out_normal out_scaled final_angle
                     width height total_frames rest
      end
  end.

(** Lines 101-160: what follows once both writers are open. *)
Definition rotate_all (cv : Imgproc) (cap out_normal out_scaled : nat)
                      (output_path_normal output_path_scaled : string)
                      (final_angle : R) (width height total_frames : Z)
                      : M bool :=
  frame_loop cv cap out_normal out_scaled final_angle
             width height total_frames (range total_frames) ;;
  cap_release cap ;;
  writer_release out_normal ;;
  writer_release out_scaled ;;
  print (Msg_saved_normal output_path_normal) ;;
  print (Msg_saved_scaled output_path_scaled) ;;
  ret true.

(** [apply_gradual_rotation(input_path, output_path_normal,
    output_path_scaled, final_angle)]. *)
Definition apply_gradual_rotation (env : Env) (cv : Imgproc)
    (input_path output_path_normal output_path_scaled : string)
    (final_angle : R) : M bool :=
  cap <- VideoCapture env input_path ;;
  opened <- cap_isOpened cap ;;
  if negb opened then
    print (Msg_cannot_open input_path) ;;
    ret false
  else
    fps <- cap_get_fps cap ;;
    width <- cap_get_width cap ;;
    height <- cap_get_height cap ;;
    total_frames <- cap_get_frame_count cap ;;
    print (Msg_video_info width height fps total_frames) ;;
    out_normal <- VideoWriter env output_path_normal mp4v fps
                    (width, height) true ;;
    out_scaled <- VideoWriter env output_path_scaled mp4v fps
                    (width, height) true ;;
    normal_ok <- writer_isOpened out_normal ;;
    scaled_ok <- writer_isOpened out_scaled ;;
    if negb (normal_ok && scaled_ok) then
      print Msg_trying_xvid ;;
      writer_release out_normal ;;
      writer_release out_scaled ;;
      let output_path_normal := replace output_path_normal ".mp4" ".avi" in
      let output_path_scaled := replace output_path_scaled ".mp4" ".avi" in
      out_normal <- VideoWriter env output_path_normal XVID fps
                      (width, height) true ;;
      out_scaled <- VideoWriter env output_path_scaled XVID fps
                      (width, height) true ;;
      normal_ok <- writer_isOpened out_normal ;;
      scaled_ok <- writer_isOpened out_scaled ;;
      if negb (normal_ok && scaled_ok) then
        print Msg_no_codec ;;
        ret false
      else
        rotate_all cv cap out_normal out_scaled
                   output_path_normal output_path_scaled
                   final_angle width height total_frames
    else
      rotate_all cv cap out_normal out_scaled
                 output_path_normal output_path_scaled
                 final_angle width height total_frames.

Definition run (env : Env) (cv : Imgproc)
    (input_path output_path_normal output_path_scaled : string)
    (final_angle : R) : Outcome bool * World :=
  apply_gradual_rotation env cv input_path output_path_normal
                         output_path_scaled final_angle empty_world.

(** ** Geometry of the rotated source rectangle *)

Definition Rmax4 (a b c d : R) : R := Rmax (Rmax a b) (Rmax c d).
Definition Rmin4 (a b c d : R) : R := Rmin (Rmin a b) (Rmin c d).

(** Width and height of the axis-aligned bounding box of the images of
    the corners (0,0), (W,0), (0,H), (W,H) of the source rectangle
    under [M]. *)
Definition bbox_width (M : Matrix) (W H : R) : R :=
  let x p := fst (affine M p) in
  Rmax4 (x (0, 0)) (x (W, 0)) (x (0, H)) (x (W, H))
  - Rmin4 (x (0, 0)) (x (W, 0)) (x (0, H)) (x (W, H)).

Definition bbox_height (M : Matrix) (W H : R) : R :=
  let y p := snd (affine M p) in
  Rmax4 (y (0, 0)) (y (W, 0)) (y (0, H)) (y (W, H))
  - Rmin4 (y (0, 0)) (y (W, 0)) (y (0, H)) (y (W, H)).

End Exer3.

(* ================================================================== *)
(** * What a run is expected to leave behind                           *)
(* ================================================================== *)

Module Outputs.
Import Numpy Cv2 Py Contrast.

(** The capture object of video [v] with [pending] frames left. *)
Definition capture_of (v : Video) (opened : bool)
                      (pending : list ColorFrame) : Capture :=
  {| cap_opened := opened; cap_fps := video_fps v;
     cap_width := video_width v; cap_height := video_height v;
     cap_frame_count := video_frame_count v; cap_pending := pending |}.

(** Exercise 1: the frame written for the source frame number
    [frame_idx], then for the ones after it. *)
Fixpoint contrast_outputs (cv : Imgproc) (contrast_mode : string)
                          (total_frames frame_idx : Z)
                          (frames : list ColorFrame) : list Frame :=
  match frames with
  | [] => []
  | frame :: rest =>
      Gray (adjust_frame contrast_mode
              (IZR frame_idx / IZR total_frames)
              (cvtColor_BGR2GRAY cv frame))
      :: contrast_outputs cv contrast_mode total_frames (frame_idx + 1) rest
  end.

(** Exercise 3: progress and angle of frame [frame_idx]. *)
Definition progress_at (total_frames frame_idx : Z) : R :=
  if (total_frames >? 1)%Z
  then IZR frame_idx / IZR (total_frames - 1)
  else 0.

Definition angle_at (final_angle : R) (total_frames frame_idx : Z) : R :=
  final_angle * progress_at total_frames frame_idx.

(** Exercise 3: the frames written to the normal and to the scaled
    output for the source frames paired with their indices. *)
Definition normal_outputs (cv : Imgproc) (final_angle : R)
                          (width height total_frames : Z)
                          (indexed : list (Z * ColorFrame)) : list Frame :=
  map (fun p => Color (Exer3.rotate_normal cv width height
                         (angle_at final_angle total_frames (fst p)) (snd p)))
      indexed.

Definition scaled_outputs (cv : Imgproc) (final_angle : R)
                          (width height total_frames : Z)
                          (indexed : list (Z * ColorFrame)) : list Frame :=
  map (fun p => Color (Exer3.rotate_scaled cv width height
                         (angle_at final_angle total_frames (fst p)) (snd p)))
      indexed.

(** Exercise 3: some codec opens both writers, the primary one or the
    fallback on the renamed paths. *)
Definition codec_available (env : Env) (pn ps : string) : bool :=
  (env_sink env pn mp4v && env_sink env ps mp4v)
  || (env_sink env (replace pn ".mp4" ".avi") XVID
      && env_sink env (replace ps ".mp4" ".avi") XVID).

(** Width and height of what a writer was handed. *)
Definition written_dims (f : Frame) (w h : Z) : Prop :=
  match f with
  | Gray g => frame_dims g w h
  | Color c => frame_dims c w h
  end.

End Outputs.

(* ================================================================== *)
(** * Concrete runs                                                    *)
(* ================================================================== *)

Module Scenarios.
Import Numpy Cv2 Py.

(** Both pipelines read this path. *)
Definition input_path : string := "my_test_video.mp4".

(** A 2x1 frame. *)
Definition tiny_frame : ColorFrame := [[(10, 20, 30)%Z; (200, 100, 50)%Z]].

(** A clip of 2x1 frames reporting [count] frames. *)
Definition tiny_clip (count : Z) (frames : list ColorFrame) : Video :=
  {| video_fps := 30; video_width := 2; video_height := 1;
     video_frame_count := count; video_frames := frames |}.

(** Only [input_path] is readable; [sink] says which writers open. *)
Definition env_of (v : Video) (sink : string -> Fourcc -> bool) : Env :=
  {| env_source := fun path =>
       if String.eqb path input_path then Some v else None;
     env_sink := sink |}.

Definition any_codec (path : string) (fourcc : Fourcc) : bool := true.
Definition no_codec (path : string) (fourcc : Fourcc) : bool := false.

(** A container whose frame count is reported as 0 and which still
    delivers a frame. *)
Definition uncounted_env : Env := env_of (tiny_clip 0 [tiny_frame]) any_codec.

(** A one-frame clip on a machine where no writer can be opened. *)
Definition unwritable_env : Env := env_of (tiny_clip 1 [tiny_frame]) no_codec.

(** A one-frame clip on a machine where every writer opens. *)
Definition one_frame_env : Env := env_of (tiny_clip 1 [tiny_frame]) any_codec.

End Scenarios.

(* ================================================================== *)
(** * One run after another                                            *)
(* ================================================================== *)

Module Compose.
Import Numpy Cv2 Py.

(** The world [old] followed by the objects and the lines of [w]. *)
Definition after (old w : World) : World :=
  {| captures := captures old ++ captures w;
     writers := writers old ++ writers w;
     stdout := stdout old ++ stdout w |}.

(** The result of a computation, seen behind the world [old]. *)
Definition behind {A : Type} (old : World) (phi : A -> A)
                  (r : Outcome A * World) : Outcome A * World :=
  match r with
  | (Returned a, w) => (Returned (phi a), after old w)
  | (Raised e, w) => (Raised e, after old w)
  | (OutOfFuel, w) => (OutOfFuel, after old w)
  end.

(** [c'], started behind [old], does what [c] does when started alone,
    up to the renaming [phi] of the value returned. *)
Definition simulates {A : Type} (old : World) (phi : A -> A)
                     (c c' : M A) : Prop :=
  forall w, c' (after old w) = behind old phi (c w).

(** Handles of objects created behind [old]. *)
Definition cap_behind (old : World) (cap : nat) : nat :=
  (length (captures old) + cap)%nat.
Definition out_behind (old : World) (out : nat) : nat :=
  (length (writers old) + out)%nat.

End Compose.

(* ================================================================== *)
(** * The script of exercise 1                                         *)
(* ================================================================== *)

Module Exer1Script.
Import Numpy Cv2 Py.
Local Open Scope py_scope.

(** Line 59. *)
Definition input_path : string := "my_test_video.mp4".

Definition linear_path : string :=
  "KenCinco-FinalExer1/transformed_video_exer1_linear.mp4".
Definition pulsate_path : string :=
  "KenCinco-FinalExer1/transformed_video_exer1_pulsate.mp4".

(** Lines 62-63: both modes, one after the other. *)
Definition script (env : Env) (cv : Imgproc) : M unit :=
  Exer1.process_video env cv input_path linear_path "linear" ;;
  Exer1.process_video env cv input_path pulsate_path "sine".

Definition run (env : Env) (cv : Imgproc) : Outcome unit * World :=
  script env cv empty_world.

End Exer1Script.

(* ================================================================== *)
(** * Exercise 3: [create_test_video] and the main block               *)
(* ================================================================== *)

Module Exer3Script.
Import Numpy Cv2 Py.

(** What the [except Exception] clauses can catch: an exception of the
    functions modelled so far, or the [ValueError] of [np.zeros]. *)
Inductive Exception : Type :=
| Builtin (e : Exn)
| ValueError.

(** The lines [create_test_video] and the main block print themselves,
    next to the lines of the functions they call. *)
Inductive Line : Type :=
| Said (m : Msg)
| Line_creating_at (output_path : string)
| Line_created_at (output_path : string)
| Line_error_creating (e : Exception)
| Line_creating_test_video
| Line_error_processing (e : Exception).

(** The objects of the run and everything printed, oldest first. *)
Record Session : Type := {
  world : World;
  console : list Line
}.

Definition empty_session : Session :=
  {| world := empty_world; console := [] |}.

Inductive Result (A : Type) : Type :=
| Done (a : A)
| Threw (e : Exception)
| Stuck.
Arguments Done {A} a.
Arguments Threw {A} e.
Arguments Stuck {A}.

Definition Script (A : Type) : Type := Session -> Result A * Session.

Definition pure {A : Type} (a : A) : Script A := fun s => (Done a, s).

Definition then_ {A B : Type} (c : Script A) (k : A -> Script B) : Script B :=
  fun s =>
    match c s with
    | (Done a, s') => k a s'
    | (Threw e, s') => (Threw e, s')
    | (Stuck, s') => (Stuck, s')
    end.

Definition throw {A : Type} (e : Exception) : Script A := fun s => (Threw e, s).

(** [try: body except Exception as e: handler(e)]. *)
Definition try_except {A : Type} (body : Script A)
                      (handler : Exception -> Script A) : Script A :=
  fun s =>
    match body s with
    | (Threw e, s') => handler e s'
    | r => r
    end.

(** [print(...)] of one of the lines above. *)
Definition say (l : Line) : Script unit :=
  fun s => (Done tt, {| world := world s; console := console s ++ [l] |}).

(** A computation of the functions modelled so far, run on the objects
    of the session; what it printed goes to the console. *)
Definition lift {A : Type} (c : M A) : Script A :=
  fun s =>
    let '(r, w') := c (world s) in
    let printed := skipn (length (stdout (world s))) (stdout w') in
    (match r with
     | Returned a => Done a
     | Raised e => Threw (Builtin e)
     | OutOfFuel => Stuck
     end,
     {| world := w'; console := console s ++ map Said printed |}).

Declare Scope script_scope.
Delimit Scope script_scope with script.
Notation "x <- c ;; k" := (then_ c (fun x => k))
  (at level 61, c at next level, right associativity) : script_scope.
Notation "c ;; k" := (then_ c (fun _ => k))
  (at level 61, right associativity) : script_scope.

Local Open Scope script_scope.

(** The text of line 40, [f"Frame: {i}/{total_frames}"]. *)
Inductive Text : Type := Frame_label (i total_frames : Z).

(** The drawing primitives the function calls and does not define:
    [cv2.circle(img, center, radius, color, thickness)],
    [cv2.rectangle(img, pt1, pt2, color, thickness)] and
    [cv2.putText(img, text, org, FONT_HERSHEY_SIMPLEX, fontScale, color,
    thickness)], each giving the image it leaves in [img]. *)
Record Drawing : Type := {
  circle : ColorFrame -> Z * Z -> Z -> Pixel -> Z -> ColorFrame;
  rectangle : ColorFrame -> Z * Z -> Z * Z -> Pixel -> Z -> ColorFrame;
  putText : ColorFrame -> Text -> Z * Z -> R -> Pixel -> Z -> ColorFrame
}.


(** Drawing primitives that paint nothing. *)
Definition no_drawing : Drawing :=
  {| circle := fun img _ _ _ _ => img;
     rectangle := fun img _ _ _ _ => img;
     putText := fun img _ _ _ _ _ => img |}.

(** [np.zeros((rows, cols, 3), dtype=np.uint8)] without the check of
    the dimensions. *)
Definition blank (rows cols : Z) : ColorFrame :=
  repeat (repeat black (Z.to_nat cols)) (Z.to_nat rows).

(** [np.zeros((rows, cols, 3), dtype=np.uint8)]: a negative dimension
    raises [ValueError]. *)
Definition zeros (rows cols : Z) : Script ColorFrame :=
  if ((rows <? 0) || (cols <? 0))%Z then throw ValueError
  else pure (blank rows cols).

(** Lines 30-31: centre of the circle of frame [i]. *)
Definition circle_center (size : Z * Z) (i total_frames : Z) : Z * Z :=
  let center_x :=
    trunc (IZR (fst size)
           * (0.5 + 0.3 * sin (IZR i * 2 * PI / IZR total_frames))) in
  let center_y :=
    trunc (IZR (snd size)
           * (0.5 + 0.3 * cos (IZR i * 2 * PI / IZR total_frames))) in
  (center_x, center_y).

(** Lines 35-36: centre of the rectangle of frame [i]. *)
Definition rect_center (size : Z * Z) (i total_frames : Z) : Z * Z :=
  let rect_x :=
    trunc (IZR (fst size)
           * (0.5 + 0.3 * cos (IZR i * 2 * PI / IZR total_frames))) in
  let rect_y :=
    trunc (IZR (snd size)
           * (0.5 + 0.3 * sin (IZR i * 2 * PI / IZR total_frames))) in
  (rect_x, rect_y).

(** Lines 29-41: what is painted on the blank frame [i]. *)
Definition paint (dr : Drawing) (size : Z * Z) (i total_frames : Z)
                 (frame : ColorFrame) : ColorFrame :=
  let '(center_x, center_y) := circle_center size i total_frames in
  let frame := circle dr frame (center_x, center_y) 50 (0, 0, 255)%Z (-1) in
  let '(rect_x, rect_y) := rect_center size i total_frames in
  let frame :=
    rectangle dr frame (rect_x - 30, rect_y - 30)%Z (rect_x + 30, rect_y + 30)%Z
              (0, 255, 0)%Z (-1) in
  putText dr frame (Frame_label i total_frames) (20, 30)%Z 0.7
          (255, 255, 255)%Z 2.

(** Lines 25-44: the [for i in range(total_frames)] loop. *)
Fixpoint draw_loop (dr : Drawing) (out : nat) (size : Z * Z)
                   (total_frames : Z) (indices : list Z) : Script unit :=
  match indices with
  | [] => pure tt
  | i :: rest =>
      frame <- zeros (snd size) (fst size) ;;
      let frame := paint dr size i total_frames frame in
      lift (writer_write out (Color frame)) ;;
      draw_loop dr out size total_frames rest
  end.

(** [create_test_video(output_path, duration, fps, size)]; [None] is
    Python's [None]. *)
Definition create_test_video (env : Env) (dr : Drawing)
                             (output_path : string) (duration fps : Z)
                             (size : Z * Z) : Script (option string) :=
  say (Line_creating_at output_path) ;;
  try_except
    (out <- lift (VideoWriter env output_path mp4v (IZR fps) size true) ;;
     opened <- lift (writer_isOpened out) ;;
     chosen <- (if negb opened then
                  lift (writer_release out) ;;
                  let output_path := replace output_path ".mp4" ".avi" in
                  out <- lift (VideoWriter env output_path XVID (IZR fps)
                                 size true) ;;
                  pure (out, output_path)
                else pure (out, output_path)) ;;
     let out := fst chosen in
     let output_path := snd chosen in
     let total_frames := (duration * fps)%Z in
     draw_loop dr out size total_frames (range total_frames) ;;
     lift (writer_release out) ;;
     say (Line_created_at output_path) ;;
     pure (Some output_path))
    (fun e => say (Line_error_creating e) ;; pure None).

(** The frames the loop hands to the writer. *)
Definition test_frames (dr : Drawing) (size : Z * Z) (total_frames : Z)
                       : list Frame :=
  map (fun i => Color (paint dr size i total_frames
                         (blank (snd size) (fst size))))
      (range total_frames).

(** Lines 165-167. *)
Definition input_path : string := "my_test_video.mp4".
Definition output_path_normal : string :=
  "KenCinco-FinalExer3/transformed_video_exer3_normal.mp4".
Definition output_path_scaled : string :=
  "KenCinco-FinalExer3/transformed_video_exer3_scaled.mp4".

(** The environment a later [cv2.VideoCapture] sees: [reread] tells
    which paths hold a readable video once the objects of the session
    have written their files. *)
Definition env_after (env : Env) (reread : Session -> string -> option Video)
                     (s : Session) : Env :=
  {| env_source := reread s; env_sink := env_sink env |}.

(** Lines 169-180: the main block. *)
Definition main (env : Env) (dr : Drawing) (cv : Imgproc)
                (reread : Session -> string -> option Video) : Script unit :=
  try_except
    (success <- lift (Exer3.apply_gradual_rotation env cv input_path
                        output_path_normal output_path_scaled 360) ;;
     if negb success then
       say Line_creating_test_video ;;
       test_video <- create_test_video env dr "my_test_video.mp4" 5 30
                       (640, 480)%Z ;;
       match test_video with
       | Some path =>
           if String.eqb path "" then pure tt
           else
             (fun s =>
                lift (Exer3.apply_gradual_rotation (env_after env reread s)
                        cv path output_path_normal output_path_scaled 360)
                     s) ;;
             pure tt
       | None => pure tt
       end
     else pure tt)
    (fun e => say (Line_error_processing e)).

End Exer3Script.

(* ================================================================== *)
(** * Facts about the NumPy layer                                      *)
(* ================================================================== *)

Module NumpyFacts.
Import Numpy.

Lemma elementwise_compose {A B C : Type} (f : A -> B) (g : B -> C) a :
  elementwise g (elementwise f a) = elementwise (fun x => g (f x)) a.
Proof.
  unfold elementwise. rewrite map_map.
  apply map_ext; intros row. now rewrite map_map.
Qed.

Lemma elementwise_ext {A B : Type} (f g : A -> B) a :
  (forall x, f x = g x) -> elementwise f a = elementwise g a.
Proof.
  intros E. unfold elementwise.
  apply map_ext; intros row. now apply map_ext.
Qed.

Lemma elementwise_ext_in {A B : Type} (P : A -> Prop) (f g : A -> B) a :
  Forall (Forall P) a -> (forall x, P x -> f x = g x) ->
  elementwise f a = elementwise g a.
Proof.
  intros Ha E. unfold elementwise.
  apply map_ext_in; intros row Hrow.
  apply map_ext_in; intros x Hx.
  apply E.
  rewrite Forall_forall in Ha. specialize (Ha row Hrow).
  rewrite Forall_forall in Ha. now apply Ha.
Qed.

Lemma elementwise_id {A : Type} (a : Array2 A) :
  elementwise (fun x => x) a = a.
Proof.
  unfold elementwise. rewrite <- (map_id a) at 2.
  apply map_ext; intros row. apply map_id.
Qed.


Lemma trunc_IZR z : trunc (IZR z) = z.
Proof.
  unfold trunc. destruct (Rle_dec 0 (IZR z)).
  - apply ZfloorZ.
  - apply Zceil_eq. lra.
Qed.

Lemma trunc_nonneg x : 0 <= x -> trunc x = Zfloor x.
Proof. intros H. unfold trunc. now destruct (Rle_dec 0 x). Qed.

Lemma clip_range x : 0 <= Rmin (Rmax x 0) 255 <= 255.
Proof.
  unfold Rmin, Rmax.
  destruct (Rle_dec x 0); destruct (Rle_dec _ 255); lra.
Qed.

Lemma Zfloor_range x : 0 <= x <= 255 -> (0 <= Zfloor x <= 255)%Z.
Proof.
  intros [H0 H1]. split.
  - apply Zfloor_lub. simpl. exact H0.
  - pose proof (Zfloor_bound x) as [Hb _].
    apply le_IZR. lra.
Qed.

Lemma uint8_of_clipped x :
  uint8_of_float (Rmin (Rmax x 0) 255) = Zfloor (Rmin (Rmax x 0) 255).
Proof.
  pose proof (clip_range x) as Hr.
  unfold uint8_of_float. rewrite trunc_nonneg by apply Hr.
  apply Z.mod_small. pose proof (Zfloor_range _ Hr). lia.
Qed.

End NumpyFacts.

(* ================================================================== *)
(** * The contrast adjuster                                            *)
(* ================================================================== *)

Module ContrastFacts.
Import Numpy Contrast NumpyFacts.

(** The pipeline of array operations, fused into one pass. *)
Lemma apply_contrast_pointwise alpha gray :
  apply_contrast alpha gray =
  elementwise
    (fun s => uint8_of_float
                (Rmin (Rmax (alpha * (IZR s - mean gray) + mean gray) 0) 255))
    gray.
Proof.
  unfold apply_contrast, astype_uint8, clip, add_scalar, scalar_mul,
    sub_scalar, astype_float32.
  now rewrite !elementwise_compose.
Qed.

Lemma clamp_min_max x lo hi :
  lo <= hi -> clamp x lo hi = Rmin (Rmax x lo) hi.
Proof.
  intros Hle. unfold clamp, Rmin, Rmax.
  destruct (Rlt_dec x lo); destruct (Rle_dec x lo);
    destruct (Rlt_dec hi x); destruct (Rle_dec _ hi); lra.
Qed.


Lemma apply_contrast_spec alpha gray :
  apply_contrast alpha gray = spec_contrast alpha gray.
Proof.
  rewrite apply_contrast_pointwise. unfold spec_contrast.
  apply elementwise_ext; intros s.
  unfold spec_sample. rewrite clamp_min_max by lra.
  apply uint8_of_clipped.
Qed.


Lemma identity_sample m s :
  is_uint8 s ->
  uint8_of_float (Rmin (Rmax (1 * (IZR s - m) + m) 0) 255) = s.
Proof.
  intros [H0 H1].
  apply IZR_le in H0, H1.
  replace (1 * (IZR s - m) + m) with (IZR s) by ring.
  rewrite Rmax_left by exact H0.
  rewrite Rmin_left by exact H1.
  unfold uint8_of_float. rewrite trunc_IZR.
  apply Z.mod_small. split; [apply le_IZR; exact H0|].
  apply lt_IZR. lra.
Qed.

Lemma apply_contrast_one gray :
  uint8_frame gray -> apply_contrast 1 gray = gray.
Proof.
  intros Hu. rewrite apply_contrast_pointwise.
  rewrite (elementwise_ext_in is_uint8 _ (fun s => s) gray Hu).
  - apply elementwise_id.
  - intros s Hs. now apply identity_sample.
Qed.

Lemma contrast_alpha_other mode p :
  mode <> "linear"%string -> mode <> "sine"%string ->
  contrast_alpha mode p = 1.
Proof.
  intros Hl Hs. unfold contrast_alpha.
  apply String.eqb_neq in Hl, Hs. rewrite Hl, Hs. lra.
Qed.

Lemma mean_two : mean [[0; 100]]%Z = 50.
Proof. unfold mean, Numpy.sum, size. simpl. lra. Qed.

(** First frame of a linear run: alpha is 0.8, the mean 50. *)
Example linear_first_frame :
  adjust_frame "linear" 0 [[0; 100]]%Z = [[10; 90]]%Z.
Proof.
  unfold adjust_frame. rewrite apply_contrast_spec.
  unfold spec_contrast, spec_sample. rewrite mean_two.
  unfold contrast_alpha. cbn [String.eqb Ascii.eqb Bool.eqb map].
  unfold clamp.
  repeat match goal with
         | |- context [Rlt_dec ?a ?b] => destruct (Rlt_dec a b); try lra
         end.
  repeat f_equal; apply Zfloor_eq; lra.
Qed.


(** C4.  The contrast factor is a function of the mode and the
    progress value alone: the linear ramp [0.8 + (1.5 - 0.8) * progress],
    worth 0.8 at progress 0 and 1.5 at progress 1 and strictly
    increasing in between; the sine curve
    [1.15 + 0.35 * sin(2 pi * progress * 2)]; and 1.0 for any other
    mode. *)
Theorem contrast_alpha_by_mode :
  (forall p, contrast_alpha "linear" p = 0.8 + (1.5 - 0.8) * p)
  /\ contrast_alpha "linear" 0 = 0.8
  /\ contrast_alpha "linear" 1 = 1.5
  /\ (forall p q, p < q ->
        contrast_alpha "linear" p < contrast_alpha "linear" q)
  /\ (forall p, contrast_alpha "sine" p
                = 1.15 + 0.35 * sin (2 * PI * p * 2))
  /\ (forall mode p, mode <> "linear"%string -> mode <> "sine"%string ->
        contrast_alpha mode p = 1.0).
Proof.
  repeat split.
  - unfold contrast_alpha; simpl; lra.
  - unfold contrast_alpha; simpl; lra.
  - intros p q Hpq. unfold contrast_alpha; simpl; lra.
  - intros mode p Hl Hs. rewrite contrast_alpha_other by assumption. lra.
Qed.

Lemma contrast_alpha_by_mode_witness :
  contrast_alpha "linear" (1 / 4) < contrast_alpha "linear" (3 / 4)
  /\ contrast_alpha "none" (1 / 2) = 1.0.
Proof.
  destruct contrast_alpha_by_mode as (_ & _ & _ & Hmono & _ & Hother).
  split.
  - apply Hmono. lra.
  - apply Hother; discriminate.
Defined.

(** C5.  With [alpha = 1.0], which is the factor of every mode other
    than linear and sine, the output of the contrast adjuster is the
    input frame itself, and so is the output of a second application. *)
Theorem identity_mode_reproduces_frame :
  forall (gray : GrayFrame),
    uint8_frame gray ->
    apply_contrast 1.0 gray = gray
    /\ apply_contrast 1.0 (apply_contrast 1.0 gray) = gray
    /\ (forall mode p q,
          mode <> "linear"%string -> mode <> "sine"%string ->
          adjust_frame mode p gray = gray
          /\ adjust_frame mode q (adjust_frame mode p gray) = gray).
Proof.
  intros gray Hu.
  assert (E1 : 1.0 = 1) by lra. rewrite E1.
  assert (Hid : apply_contrast 1 gray = gray) by now apply apply_contrast_one.
  repeat split.
  - exact Hid.
  - now rewrite Hid.
  - unfold adjust_frame. now rewrite contrast_alpha_other.
  - unfold adjust_frame. rewrite !contrast_alpha_other by assumption.
    now rewrite Hid.
Qed.

Lemma identity_mode_reproduces_frame_witness :
  uint8_frame [[0; 128]; [255; 7]]%Z
  /\ adjust_frame "none" (1 / 2) [[0; 128]; [255; 7]]%Z
     = [[0; 128]; [255; 7]]%Z.
Proof.
  assert (Hu : uint8_frame [[0; 128]; [255; 7]]%Z).
  { repeat constructor; unfold is_uint8; lia. }
  split; [exact Hu|].
  destruct (identity_mode_reproduces_frame _ Hu) as (_ & _ & H).
  apply (H "none"%string (1 / 2) 0); discriminate.
Defined.

End ContrastFacts.

(* ================================================================== *)
(** * The rotation-scaler: angles and the scale-to-fit factor          *)
(* ================================================================== *)

Module RotationFacts.
Import Numpy Cv2 Py Exer3.

Lemma cos_Rabs x : cos (Rabs x) = cos x.
Proof.
  unfold Rabs. destruct (Rcase_abs x); [apply cos_neg | reflexivity].
Qed.

Lemma Rabs_sin_Rabs x : Rabs (sin (Rabs x)) = Rabs (sin x).
Proof.
  unfold Rabs at 2. destruct (Rcase_abs x); [|reflexivity].
  rewrite sin_neg. apply Rabs_Ropp.
Qed.

(** [|cos| + |sin| >= 1]. *)
Lemma abs_cos_plus_abs_sin t : 1 <= Rabs (cos t) + Rabs (sin t).
Proof.
  pose proof (Rabs_pos (cos t)) as Hc.
  pose proof (Rabs_pos (sin t)) as Hs.
  pose proof (sin2_cos2 t) as H1. unfold Rsqr in H1.
  assert (Hc2 : Rabs (cos t) * Rabs (cos t) = cos t * cos t).
  { rewrite <- Rabs_mult. apply Rabs_pos_eq. nra. }
  assert (Hs2 : Rabs (sin t) * Rabs (sin t) = sin t * sin t).
  { rewrite <- Rabs_mult. apply Rabs_pos_eq. nra. }
  nra.
Qed.

(** The test of line 130 singles out the multiples of 90 degrees. *)
Lemma fmod_90_zero theta :
  fmod theta 90 = 0 <-> exists k : Z, theta = 90 * IZR k.
Proof.
  unfold fmod. split.
  - intros H. exists (Zfloor (theta / 90)). lra.
  - intros [k ->].
    replace (90 * IZR k / 90) with (IZR k) by (field; lra).
    rewrite ZfloorZ. ring.
Qed.

Lemma fmod_0 y : fmod 0 y = 0.
Proof.
  unfold fmod. unfold Rdiv. rewrite Rmult_0_l.
  replace 0 with (IZR 0) at 2 by reflexivity.
  rewrite ZfloorZ. simpl. ring.
Qed.

Lemma bbox_extent u v t :
  Rmax4 t (u + t) (v + t) (u + v + t) - Rmin4 t (u + t) (v + t) (u + v + t)
  = Rabs u + Rabs v.
Proof.
  unfold Rmax4, Rmin4, Rmax, Rmin, Rabs.
  destruct (Rle_dec t (u + t)), (Rle_dec (v + t) (u + v + t));
  repeat match goal with
         | |- context [Rle_dec ?a ?b] => destruct (Rle_dec a b)
         | |- context [Rcase_abs ?a] => destruct (Rcase_abs a)
         end; lra.
Qed.

Lemma bbox_width_formula center angle scale W H :
  bbox_width (getRotationMatrix2D center angle scale) W H
  = Rabs (scale * cos (angle * PI / 180) * W)
    + Rabs (scale * sin (angle * PI / 180) * H).
Proof.
  unfold bbox_width, getRotationMatrix2D, affine. cbn [fst snd].
  set (a := scale * cos (angle * PI / 180)).
  set (b := scale * sin (angle * PI / 180)).
  set (t := (1 - a) * IZR (fst center) - b * IZR (snd center)).
  rewrite <- (bbox_extent (a * W) (b * H) t).
  f_equal; f_equal; try f_equal; ring.
Qed.

Lemma bbox_height_formula center angle scale W H :
  bbox_height (getRotationMatrix2D center angle scale) W H
  = Rabs (scale * sin (angle * PI / 180) * W)
    + Rabs (scale * cos (angle * PI / 180) * H).
Proof.
  unfold bbox_height, getRotationMatrix2D, affine. cbn [fst snd].
  set (a := scale * cos (angle * PI / 180)).
  set (b := scale * sin (angle * PI / 180)).
  set (t := b * IZR (fst center) + (1 - a) * IZR (snd center)).
  rewrite <- (Rabs_Ropp (b * W)).
  rewrite <- (bbox_extent (- (b * W)) (a * H) t).
  f_equal; f_equal; try f_equal; ring.
Qed.

Lemma scaling_factor_multiple W H theta :
  fmod theta 90 = 0 -> scaling_factor_of W H theta = 1.
Proof.
  intros Hm. unfold scaling_factor_of.
  destruct (Req_dec_T (fmod theta 90) 0); [lra | contradiction].
Qed.

Lemma scaling_factor_formula W H theta :
  fmod theta 90 <> 0 ->
  scaling_factor_of W H theta =
    Rmin (IZR W / (IZR W * Rabs (cos (theta * PI / 180))
                   + IZR H * Rabs (sin (theta * PI / 180))))
         (IZR H / (IZR W * Rabs (sin (theta * PI / 180))
                   + IZR H * Rabs (cos (theta * PI / 180)))).
Proof.
  intros Hm. unfold scaling_factor_of.
  destruct (Req_dec_T (fmod theta 90) 0); [contradiction|].
  now rewrite cos_Rabs, Rabs_sin_Rabs.
Qed.

Section ScaleToFit.
Variables w h c s : R.
Hypothesis w_pos : 0 < w.
Hypothesis h_pos : 0 < h.
Hypothesis c_nonneg : 0 <= c.
Hypothesis s_nonneg : 0 <= s.
Hypothesis cs_ge_1 : 1 <= c + s.

Let new_width := w * c + h * s.
Let new_height := w * s + h * c.
Let k := Rmin (w / new_width) (h / new_height).

Lemma new_width_pos : 0 < new_width.
Proof.
  unfold new_width.
  assert (0 <= w * c) by (apply Rmult_le_pos; lra).
  assert (0 <= h * s) by (apply Rmult_le_pos; lra).
  destruct (Rle_dec c 0).
  - assert (h <= h * s) by nra. lra.
  - assert (0 < w * c) by (apply Rmult_lt_0_compat; lra). lra.
Qed.

Lemma new_height_pos : 0 < new_height.
Proof.
  unfold new_height.
  assert (0 <= w * s) by (apply Rmult_le_pos; lra).
  assert (0 <= h * c) by (apply Rmult_le_pos; lra).
  destruct (Rle_dec c 0).
  - assert (w <= w * s) by nra. lra.
  - assert (0 < h * c) by (apply Rmult_lt_0_compat; lra). lra.
Qed.

Lemma fit_factor_pos : 0 < k.
Proof.
  unfold k. apply Rmin_glb_lt; apply Rdiv_lt_0_compat;
    auto using new_width_pos, new_height_pos.
Qed.

Lemma fit_factor_width : k * new_width <= w.
Proof.
  pose proof new_width_pos as Hn.
  assert (Hk : k <= w / new_width) by apply Rmin_l.
  apply (Rmult_le_compat_r new_width) in Hk; [|lra].
  replace (w / new_width * new_width) with w in Hk by (field; lra).
  exact Hk.
Qed.

Lemma fit_factor_height : k * new_height <= h.
Proof.
  pose proof new_height_pos as Hn.
  assert (Hk : k <= h / new_height) by apply Rmin_r.
  apply (Rmult_le_compat_r new_height) in Hk; [|lra].
  replace (h / new_height * new_height) with h in Hk by (field; lra).
  exact Hk.
Qed.

Lemma fit_factor_le_1 : k <= 1.
Proof.
  pose proof new_width_pos as Hw.
  pose proof new_height_pos as Hh.
  pose proof fit_factor_width as Fw.
  pose proof fit_factor_height as Fh.
  pose proof fit_factor_pos as Hk.
  destruct (Rle_dec w h) as [Hle | Hgt].
  - assert (w <= new_width) by (unfold new_width; nra). nra.
  - assert (h <= new_height) by (unfold new_height; nra). nra.
Qed.
End ScaleToFit.

(** C2.  For a [W] by [H] canvas and an angle of [theta] degrees, the
    scale-to-fit factor is 1.0 when [theta mod 90 = 0] (that is, when
    [theta] is a multiple of 90 degrees) and otherwise
    [min(W / (W |cos| + H |sin|), H / (W |sin| + H |cos|))]; on a canvas
    of positive width and height and at an angle that is not a
    multiple of 90 degrees, that factor lies in (0, 1] and the bounding
    box of the source rectangle, rotated and scaled by the matrix the
    script builds, is at most [W] wide and [H] high. *)
Theorem scale_to_fit_factor :
  forall (W H : Z) (theta : R),
    (fmod theta 90 = 0 <-> exists k : Z, theta = 90 * IZR k)
    /\ (fmod theta 90 = 0 -> scaling_factor_of W H theta = 1.0)
    /\ (fmod theta 90 <> 0 ->
          scaling_factor_of W H theta =
            Rmin (IZR W / (IZR W * Rabs (cos (theta * PI / 180))
                           + IZR H * Rabs (sin (theta * PI / 180))))
                 (IZR H / (IZR W * Rabs (sin (theta * PI / 180))
                           + IZR H * Rabs (cos (theta * PI / 180)))))
    /\ ((0 < W)%Z -> (0 < H)%Z -> fmod theta 90 <> 0 ->
          0 < scaling_factor_of W H theta <= 1
          /\ bbox_width
               (getRotationMatrix2D (W / 2, H / 2)%Z theta
                  (scaling_factor_of W H theta)) (IZR W) (IZR H)
             <= IZR W
          /\ bbox_height
               (getRotationMatrix2D (W / 2, H / 2)%Z theta
                  (scaling_factor_of W H theta)) (IZR W) (IZR H)
             <= IZR H).
Proof.
  intros W H theta.
  split; [apply fmod_90_zero|].
  split; [intros Hm; rewrite scaling_factor_multiple by exact Hm; lra|].
  split; [apply scaling_factor_formula|].
  intros HW HH Hm.
  rewrite bbox_width_formula, bbox_height_formula.
  rewrite (scaling_factor_formula W H theta Hm).
  set (t := theta * PI / 180).
  apply IZR_lt in HW, HH.
  pose proof (Rabs_pos (cos t)) as Hc.
  pose proof (Rabs_pos (sin t)) as Hs.
  pose proof (abs_cos_plus_abs_sin t) as Hcs.
  pose proof (fit_factor_pos _ _ _ _ HW HH Hc Hs Hcs) as Kpos.
  pose proof (fit_factor_le_1 _ _ _ _ HW HH Hc Hs Hcs) as Kle.
  pose proof (fit_factor_width _ _ _ _ HW HH Hc Hs Hcs) as Kw.
  pose proof (fit_factor_height _ _ _ _ HW HH Hc Hs Hcs) as Kh.
  set (k := Rmin _ _) in *.
  rewrite !Rabs_mult.
  rewrite (Rabs_pos_eq k) by lra.
  rewrite (Rabs_pos_eq (IZR W)) by lra.
  rewrite (Rabs_pos_eq (IZR H)) by lra.
  repeat split; try lra.
Qed.

Lemma fmod_45_90 : fmod 45 90 <> 0.
Proof.
  intros E. apply fmod_90_zero in E. destruct E as [k E].
  assert (H1 : 0 < IZR k) by lra. assert (H2 : IZR k < 1) by lra.
  apply lt_IZR in H1, H2. lia.
Qed.

Lemma scale_to_fit_factor_witness :
  0 < scaling_factor_of 640 480 45 <= 1
  /\ bbox_width (getRotationMatrix2D (320, 240)%Z 45
                   (scaling_factor_of 640 480 45)) 640 480 <= 640
  /\ bbox_height (getRotationMatrix2D (320, 240)%Z 45
                    (scaling_factor_of 640 480 45)) 640 480 <= 480.
Proof.
  destruct (scale_to_fit_factor 640 480 45) as (_ & _ & _ & H).
  apply H; [lia | lia | exact fmod_45_90].
Defined.

Lemma angle_45 : 45 * PI / 180 = PI / 4.
Proof. field. Qed.

(** A square canvas at 45 degrees is shrunk by [1 / sqrt 2]. *)
Example square_canvas_45 :
  scaling_factor_of 100 100 45 = 1 / sqrt 2.
Proof.
  rewrite (scaling_factor_formula 100 100 45 fmod_45_90).
  rewrite angle_45, cos_PI4, sin_PI4.
  assert (Hs : 0 < sqrt 2) by (apply sqrt_lt_R0; lra).
  assert (Hi : 0 < 1 / sqrt 2) by (apply Rdiv_lt_0_compat; lra).
  assert (H2 : sqrt 2 * sqrt 2 = 2) by (apply sqrt_sqrt; lra).
  rewrite (Rabs_pos_eq (1 / sqrt 2)) by lra.
  rewrite Rmin_left by lra.
  set (s := sqrt 2) in *.
  field_simplify_eq; [nra | lra].
Qed.

(** ** Progress and angle *)

Lemma progress_of_value frame_idx total_frames w :
  progress_of frame_idx total_frames w =
    (Returned (if (total_frames >? 1)%Z
               then IZR frame_idx / IZR (total_frames - 1) else 0), w).
Proof.
  unfold progress_of, truediv.
  destruct (total_frames >? 1)%Z eqn:E; [|reflexivity].
  destruct (total_frames - 1 =? 0)%Z eqn:E0; [lia | reflexivity].
Qed.

End RotationFacts.

(* ================================================================== *)
(** * Running the pipelines                                            *)
(* ================================================================== *)

Module RunFacts.
Import Numpy Cv2 Py Outputs RotationFacts.
Local Open Scope py_scope.

Example replace_extension :
  replace "KenCinco-FinalExer3/transformed_video_exer3_normal.mp4"
          ".mp4" ".avi"
  = "KenCinco-FinalExer3/transformed_video_exer3_normal.avi"%string.
Proof. reflexivity. Qed.

Example replace_every_occurrence :
  replace "a.mp4.mp4b" ".mp4" ".avi" = "a.avi.avib"%string.
Proof. reflexivity. Qed.

Lemma update_here {A : Type} (pre : list A) f x l :
  update (length pre) f (pre ++ x :: l) = pre ++ f x :: l.
Proof.
  unfold update. induction pre as [|a pre IH]; simpl.
  - reflexivity.
  - f_equal. exact IH.
Qed.

Lemma update_next {A : Type} (pre : list A) f x y l :
  update (S (length pre)) f (pre ++ x :: y :: l) = pre ++ x :: f y :: l.
Proof.
  unfold update. induction pre as [|a pre IH]; simpl.
  - reflexivity.
  - f_equal. exact IH.
Qed.

Lemma nth_here {A : Type} (pre : list A) x l d :
  nth (length pre) (pre ++ x :: l) d = x.
Proof. apply nth_middle. Qed.

Lemma nth_next {A : Type} (pre : list A) x y l d :
  nth (S (length pre)) (pre ++ x :: y :: l) d = y.
Proof. induction pre as [|a pre IH]; simpl; [reflexivity | exact IH]. Qed.

Lemma bind_returned {A B : Type} (c : M A) (k : A -> M B) w a w' :
  c w = (Returned a, w') -> bind c k w = k a w'.
Proof. intros E. unfold bind. now rewrite E. Qed.

Lemma max_1_nonzero n : (Z.max 1 n =? 0)%Z = false.
Proof. apply Z.eqb_neq. lia. Qed.

Lemma write_here cs pre p c f z k w o2 out frame :
  writer_write (length pre) frame
    {| captures := cs;
       writers := pre ++ [Build_Writer p c f z k true w; o2];
       stdout := out |}
  = (Returned tt,
     {| captures := cs;
        writers := pre ++ [Build_Writer p c f z k true (w ++ [frame]); o2];
        stdout := out |}).
Proof.
  unfold writer_write, with_writers. cbn [captures writers stdout].
  now rewrite update_here.
Qed.

Lemma write_next cs pre p c f z k w o1 out frame :
  writer_write (S (length pre)) frame
    {| captures := cs;
       writers := pre ++ [o1; Build_Writer p c f z k true w];
       stdout := out |}
  = (Returned tt,
     {| captures := cs;
        writers := pre ++ [o1; Build_Writer p c f z k true (w ++ [frame])];
        stdout := out |}).
Proof.
  unfold writer_write, with_writers. cbn [captures writers stdout].
  now rewrite update_next.
Qed.

(** The [for] loop of exercise 3 on a world with one open capture and
    both writers open. *)
Lemma rotation_loop_run cv final_angle v width height total_frames :
  forall indices pending pre p1 c1 f1 z1 k1 w1 p2 c2 f2 z2 k2 w2 out,
    Forall (fun i => (0 <= i < total_frames)%Z) indices ->
    exists msgs,
      Exer3.frame_loop cv 0 (length pre) (S (length pre)) final_angle
        width height total_frames indices
        {| captures := [capture_of v true pending];
           writers := pre ++ [Build_Writer p1 c1 f1 z1 k1 true w1;
                              Build_Writer p2 c2 f2 z2 k2 true w2];
           stdout := out |}
      = (Returned tt,
         {| captures :=
              [capture_of v true (skipn (length indices) pending)];
            writers :=
              pre ++ [Build_Writer p1 c1 f1 z1 k1 true
                        (w1 ++ normal_outputs cv final_angle width height
                                 total_frames (combine indices pending));
                      Build_Writer p2 c2 f2 z2 k2 true
                        (w2 ++ scaled_outputs cv final_angle width height
                                 total_frames (combine indices pending))];
            stdout := out ++ msgs |}).
Proof.
  induction indices as [|i rest IH]; intros pending pre p1 c1 f1 z1 k1 w1
    p2 c2 f2 z2 k2 w2 out Hidx.
  - exists []. simpl. unfold ret. now rewrite !app_nil_r.
  - destruct pending as [|frame pending].
    + exists []. simpl. unfold bind, cap_read, ret. simpl.
      now rewrite !app_nil_r.
    + inversion Hidx as [|? ? Hi Hrest]; subst.
      cbn [Exer3.frame_loop].
      unfold bind at 1. unfold cap_read. cbn.
      unfold with_captures. cbn [captures writers stdout].
      erewrite bind_returned by apply progress_of_value.
      erewrite bind_returned by apply write_here.
      erewrite bind_returned by apply write_next.
      unfold modulo at 1. rewrite max_1_nonzero.
      unfold bind at 1, ret at 1.
      assert (Hnz : (total_frames =? 0)%Z = false) by (apply Z.eqb_neq; lia).
      fold (progress_at total_frames i).
      fold (angle_at final_angle total_frames i).
      destruct (i mod Z.max 1 (total_frames / 10) =? 0)%Z.
      * unfold bind at 1, bind at 1, truediv. rewrite Hnz.
        unfold ret at 1, print. cbn [captures writers stdout].
        destruct (IH pending pre p1 c1 f1 z1 k1
                    (w1 ++ [Color (Exer3.rotate_normal cv width height
                              (angle_at final_angle total_frames i) frame)])
                    p2 c2 f2 z2 k2
                    (w2 ++ [Color (Exer3.rotate_scaled cv width height
                              (angle_at final_angle total_frames i) frame)])
                    (out ++ [Msg_processing i total_frames
                               (IZR i / IZR total_frames * 100)
                               (angle_at final_angle total_frames i)
                               (Exer3.scaling_factor_of width height
                                  (angle_at final_angle total_frames i))])
                    Hrest)
          as [msgs E].
        eexists. etransitivity; [exact E|].
        rewrite <- !app_assoc. reflexivity.
      * unfold bind at 1, ret at 1.
        destruct (IH pending pre p1 c1 f1 z1 k1
                    (w1 ++ [Color (Exer3.rotate_normal cv width height
                              (angle_at final_angle total_frames i) frame)])
                    p2 c2 f2 z2 k2
                    (w2 ++ [Color (Exer3.rotate_scaled cv width height
                              (angle_at final_angle total_frames i) frame)])
                    out Hrest)
          as [msgs E].
        exists msgs. etransitivity; [exact E|].
        rewrite <- !app_assoc. reflexivity.
Qed.
Lemma release_here cs pre p c f z k b w o2 out :
  writer_release (length pre)
    {| captures := cs;
       writers := pre ++ [Build_Writer p c f z k b w; o2];
       stdout := out |}
  = (Returned tt,
     {| captures := cs;
        writers := pre ++ [Build_Writer p c f z k false w; o2];
        stdout := out |}).
Proof.
  unfold writer_release, with_writers. cbn [captures writers stdout].
  now rewrite update_here.
Qed.

Lemma release_next cs pre p c f z k b w o1 out :
  writer_release (S (length pre))
    {| captures := cs;
       writers := pre ++ [o1; Build_Writer p c f z k b w];
       stdout := out |}
  = (Returned tt,
     {| captures := cs;
        writers := pre ++ [o1; Build_Writer p c f z k false w];
        stdout := out |}).
Proof.
  unfold writer_release, with_writers. cbn [captures writers stdout].
  now rewrite update_next.
Qed.

Lemma range_bounds n : Forall (fun i => (0 <= i < n)%Z) (range n).
Proof.
  unfold range. apply Forall_forall. intros i Hi.
  apply in_map_iff in Hi. destruct Hi as [k [<- Hk]].
  apply in_seq in Hk. lia.
Qed.

Lemma length_range n : length (range n) = Z.to_nat n.
Proof. unfold range. now rewrite length_map, length_seq. Qed.

(** Lines 101-160, started with one open capture and both writers
    open: every frame the loop reaches is written to both outputs and
    all three objects are released. *)
Lemma rotate_all_run cv final_angle v width height total_frames
      pending pre p1 c1 f1 z1 k1 p2 c2 f2 z2 k2 out pn ps :
  exists msgs,
    Exer3.rotate_all cv 0 (length pre) (S (length pre)) pn ps final_angle
      width height total_frames
      {| captures := [capture_of v true pending];
         writers := pre ++ [Build_Writer p1 c1 f1 z1 k1 true [];
                            Build_Writer p2 c2 f2 z2 k2 true []];
         stdout := out |}
    = (Returned true,
       {| captures :=
            [capture_of v false (skipn (Z.to_nat total_frames) pending)];
          writers :=
            pre ++ [Build_Writer p1 c1 f1 z1 k1 false
                      (normal_outputs cv final_angle width height
                         total_frames (combine (range total_frames) pending));
                    Build_Writer p2 c2 f2 z2 k2 false
                      (scaled_outputs cv final_angle width height
                         total_frames (combine (range total_frames) pending))];
          stdout := out ++ msgs ++ [Msg_saved_normal pn; Msg_saved_scaled ps] |}).
Proof.
  destruct (rotation_loop_run cv final_angle v width height total_frames
              (range total_frames) pending pre p1 c1 f1 z1 k1 []
              p2 c2 f2 z2 k2 [] out (range_bounds total_frames))
    as [msgs E].
  exists msgs. unfold Exer3.rotate_all.
  erewrite bind_returned by exact E.
  rewrite length_range. cbn [app].
  unfold bind at 1, cap_release, with_captures, capture_of.
  cbn [captures writers stdout update firstn nth_error skipn app
       cap_opened cap_fps cap_width cap_height cap_frame_count cap_pending].
  erewrite bind_returned by apply release_here.
  erewrite bind_returned by apply release_next.
  unfold bind, print, ret. cbn [captures writers stdout].
  now rewrite <- !app_assoc.
Qed.

Section Rotation.
Variables (env : Env) (cv : Imgproc).
Variables (input_path pn ps : string) (final_angle : R).

Let pn' := replace pn ".mp4" ".avi".
Let ps' := replace ps ".mp4" ".avi".

(** The source cannot be opened: nothing else happens. *)
Lemma rotation_no_source :
  env_source env input_path = None ->
  Exer3.run env cv input_path pn ps final_angle
  = (Returned false,
     {| captures := [closed_capture]; writers := [];
        stdout := [Msg_cannot_open input_path] |}).
Proof.
  intros Hsrc.
  unfold Exer3.run, Exer3.apply_gradual_rotation, bind, VideoCapture,
    cap_isOpened, the_capture, print, ret, empty_world.
  cbn [captures writers stdout length app nth].
  rewrite Hsrc. reflexivity.
Qed.

Variable v : Video.
Hypothesis source_ok : env_source env input_path = Some v.

Let width := video_width v.
Let height := video_height v.
Let total_frames := video_frame_count v.
Let indexed := combine (range total_frames) (video_frames v).
Let left_over := skipn (Z.to_nat total_frames) (video_frames v).
Let info := Msg_video_info width height (video_fps v) total_frames.

(** Both writers open with the primary codec. *)
Lemma rotation_primary :
  env_sink env pn mp4v = true -> env_sink env ps mp4v = true ->
  exists msgs,
    Exer3.run env cv input_path pn ps final_angle
    = (Returned true,
       {| captures := [capture_of v false left_over];
          writers :=
            [Build_Writer pn mp4v (video_fps v) (width, height) true false
               (normal_outputs cv final_angle width height total_frames
                  indexed);
             Build_Writer ps mp4v (video_fps v) (width, height) true false
               (scaled_outputs cv final_angle width height total_frames
                  indexed)];
          stdout :=
            [info] ++ msgs ++ [Msg_saved_normal pn; Msg_saved_scaled ps] |}).
Proof.
  intros Hn Hs.
  destruct (rotate_all_run cv final_angle v width height total_frames
              (video_frames v) []
              pn mp4v (video_fps v) (width, height) true
              ps mp4v (video_fps v) (width, height) true
              [info] pn ps) as [msgs E].
  exists msgs.
  unfold Exer3.run, Exer3.apply_gradual_rotation, bind, VideoCapture,
    cap_isOpened, cap_get_fps, cap_get_width, cap_get_height,
    cap_get_frame_count, the_capture, VideoWriter, writer_isOpened,
    the_writer, with_writers, print, empty_world.
  cbn [captures writers stdout length app nth].
  rewrite source_ok.
  cbn [open_capture cap_opened cap_fps cap_width cap_height
       cap_frame_count negb wr_opened].
  rewrite Hn, Hs. cbn [andb negb].
  exact E.
Qed.

(** The primary codec fails for one of the writers, the fallback
    opens both. *)
Lemma rotation_fallback :
  env_sink env pn mp4v && env_sink env ps mp4v = false ->
  env_sink env pn' XVID = true -> env_sink env ps' XVID = true ->
  exists msgs,
    Exer3.run env cv input_path pn ps final_angle
    = (Returned true,
       {| captures := [capture_of v false left_over];
          writers :=
            [Build_Writer pn mp4v (video_fps v) (width, height) true false [];
             Build_Writer ps mp4v (video_fps v) (width, height) true false [];
             Build_Writer pn' XVID (video_fps v) (width, height) true false
               (normal_outputs cv final_angle width height total_frames
                  indexed);
             Build_Writer ps' XVID (video_fps v) (width, height) true false
               (scaled_outputs cv final_angle width height total_frames
                  indexed)];
          stdout :=
            [info; Msg_trying_xvid] ++ msgs
            ++ [Msg_saved_normal pn'; Msg_saved_scaled ps'] |}).
Proof.
  intros Hp Hn Hs.
  destruct (rotate_all_run cv final_angle v width height total_frames
              (video_frames v)
              [Build_Writer pn mp4v (video_fps v) (width, height) true false [];
               Build_Writer ps mp4v (video_fps v) (width, height) true false []]
              pn' XVID (video_fps v) (width, height) true
              ps' XVID (video_fps v) (width, height) true
              [info; Msg_trying_xvid] pn' ps') as [msgs E].
  exists msgs.
  unfold Exer3.run, Exer3.apply_gradual_rotation, bind, VideoCapture,
    cap_isOpened, cap_get_fps, cap_get_width, cap_get_height,
    cap_get_frame_count, the_capture, VideoWriter, writer_isOpened,
    writer_release, the_writer, with_writers, print, empty_world.
  cbn [captures writers stdout length app nth].
  rewrite source_ok.
  cbn -[replace Exer3.rotate_all andb].
  rewrite Hp.
  cbn -[replace Exer3.rotate_all andb].
  fold pn' ps'. rewrite Hn, Hs.
  cbn -[replace Exer3.rotate_all].
  exact E.
Qed.

(** Neither codec opens both writers: the run stops before the loop,
    and returns with the capture still open. *)
Lemma rotation_no_codec :
  env_sink env pn mp4v && env_sink env ps mp4v = false ->
  env_sink env pn' XVID && env_sink env ps' XVID = false ->
  Exer3.run env cv input_path pn ps final_angle
  = (Returned false,
     {| captures := [capture_of v true (video_frames v)];
        writers :=
          [Build_Writer pn mp4v (video_fps v) (width, height) true false [];
           Build_Writer ps mp4v (video_fps v) (width, height) true false [];
           Build_Writer pn' XVID (video_fps v) (width, height) true
             (env_sink env pn' XVID) [];
           Build_Writer ps' XVID (video_fps v) (width, height) true
             (env_sink env ps' XVID) []];
        stdout := [info; Msg_trying_xvid; Msg_no_codec] |}).
Proof.
  intros Hp Hf.
  unfold Exer3.run, Exer3.apply_gradual_rotation, bind, VideoCapture,
    cap_isOpened, cap_get_fps, cap_get_width, cap_get_height,
    cap_get_frame_count, the_capture, VideoWriter, writer_isOpened,
    writer_release, the_writer, with_writers, print, ret, empty_world.
  cbn [captures writers stdout length app nth].
  rewrite source_ok.
  cbn -[replace Exer3.rotate_all andb].
  rewrite Hp.
  cbn -[replace Exer3.rotate_all andb].
  fold pn' ps'. rewrite Hf.
  reflexivity.
Qed.

End Rotation.

(** The [while] loop of exercise 1 on a world with one open capture
    and one writer, when no division by zero is met. *)
Lemma contrast_loop_run cv contrast_mode v total_frames :
  forall pending fuel frame_idx p c f z k b w out,
    pending = [] \/ total_frames <> 0%Z ->
    (length pending < fuel)%nat ->
    Exer1.frame_loop fuel cv 0 0 contrast_mode total_frames frame_idx
      {| captures := [capture_of v true pending];
         writers := [Build_Writer p c f z k b w];
         stdout := out |}
    = (Returned tt,
       {| captures := [capture_of v true []];
          writers :=
            [Build_Writer p c f z k b
               (if b
                then w ++ contrast_outputs cv contrast_mode total_frames
                            frame_idx pending
                else w)];
          stdout := out |}).
Proof.
  induction pending as [|frame pending IH];
    intros fuel frame_idx p c f z k b w out Hnz Hfuel.
  - destruct fuel as [|fuel]; [simpl in Hfuel; lia|].
    cbn. rewrite app_nil_r. now destruct b.
  - destruct fuel as [|fuel]; [simpl in Hfuel; lia|].
    destruct Hnz as [Hnil | Hnz]; [discriminate|].
    assert (E0 : (total_frames =? 0)%Z = false) by now apply Z.eqb_neq.
    cbn [Exer1.frame_loop].
    unfold bind at 1, cap_isOpened, the_capture. cbn [captures nth capture_of cap_opened negb].
    unfold bind at 1, cap_read, the_capture, with_captures.
    cbn [captures writers stdout nth cap_opened cap_pending cap_fps cap_width
         cap_height cap_frame_count update firstn nth_error skipn app].
    unfold bind at 1, truediv. rewrite E0. unfold ret at 1.
    unfold bind at 1, writer_write, with_writers.
    cbn [captures writers stdout update firstn nth_error skipn app
         wr_path wr_fourcc wr_fps wr_size wr_isColor wr_opened wr_written].
    etransitivity.
    { apply IH; [now right | simpl in Hfuel; lia]. }
    destruct b; [|reflexivity].
    cbn [contrast_outputs wr_path wr_fourcc wr_fps wr_size wr_isColor
         wr_opened wr_written].
    now rewrite <- app_assoc.
Qed.

(** The same loop when the source reports zero frames and still
    delivers one: the division of line 32 raises. *)
Lemma contrast_loop_raises cv contrast_mode v fuel total_frames frame_idx
      frame pending o out :
  total_frames = 0%Z ->
  Exer1.frame_loop (S fuel) cv 0 0 contrast_mode total_frames frame_idx
    {| captures := [capture_of v true (frame :: pending)];
       writers := [o]; stdout := out |}
  = (Raised ZeroDivisionError,
     {| captures := [capture_of v true pending];
        writers := [o]; stdout := out |}).
Proof. intros ->. reflexivity. Qed.

Section ContrastRun.
Variables (env : Env) (cv : Imgproc).
Variables (input_path output_path contrast_mode : string).

Lemma contrast_no_source :
  env_source env input_path = None ->
  Exer1.run env cv input_path output_path contrast_mode
  = (Returned tt,
     {| captures := [closed_capture]; writers := [];
        stdout := [Msg_could_not_open_video input_path] |}).
Proof.
  intros Hsrc.
  unfold Exer1.run, Exer1.process_video, bind, VideoCapture,
    cap_isOpened, the_capture, print, empty_world.
  cbn [captures writers stdout length app nth].
  rewrite Hsrc. reflexivity.
Qed.

Variable v : Video.
Hypothesis source_ok : env_source env input_path = Some v.

(** The run completes: the sink is created once, with the primary
    codec, and never checked. *)
Lemma contrast_completes :
  video_frames v = [] \/ video_frame_count v <> 0%Z ->
  Exer1.run env cv input_path output_path contrast_mode
  = (Returned tt,
     {| captures := [capture_of v false []];
        writers :=
          [Build_Writer output_path mp4v (video_fps v)
             (video_width v, video_height v) false false
             (if env_sink env output_path mp4v
              then contrast_outputs cv contrast_mode
                     (video_frame_count v) 0 (video_frames v)
              else [])];
        stdout := [Msg_finished contrast_mode output_path] |}).
Proof.
  intros Hnz.
  unfold Exer1.run, Exer1.process_video.
  unfold bind at 1, VideoCapture, empty_world.
  cbn [captures writers stdout length app].
  rewrite source_ok.
  unfold bind at 1, cap_isOpened, the_capture.
  cbn [captures nth open_capture cap_opened negb].
  unfold bind at 1, cap_get_fps, bind at 1, cap_get_width,
    bind at 1, cap_get_height, bind at 1, cap_get_frame_count, the_capture.
  cbn [captures nth cap_fps cap_width cap_height cap_frame_count].
  unfold bind at 1, VideoWriter, with_writers.
  cbn [captures writers stdout length app].
  unfold bind at 1, cap_remaining, the_capture.
  cbn [captures nth cap_pending].
  pose proof (contrast_loop_run cv contrast_mode v (video_frame_count v)
                (video_frames v) (S (length (video_frames v))) 0%Z
                output_path mp4v (video_fps v)
                (video_width v, video_height v) false
                (env_sink env output_path mp4v) [] [] Hnz
                (Nat.lt_succ_diag_r _)) as E.
  erewrite bind_returned by exact E.
  cbn. now destruct (env_sink env output_path mp4v).
Qed.

(** The source reports zero frames and delivers at least one. *)
Lemma contrast_raises frame rest :
  video_frame_count v = 0%Z -> video_frames v = frame :: rest ->
  Exer1.run env cv input_path output_path contrast_mode
  = (Raised ZeroDivisionError,
     {| captures := [capture_of v true rest];
        writers :=
          [Build_Writer output_path mp4v (video_fps v)
             (video_width v, video_height v) false
             (env_sink env output_path mp4v) []];
        stdout := [] |}).
Proof.
  intros Hcount Hframes.
  unfold Exer1.run, Exer1.process_video.
  unfold bind at 1, VideoCapture, empty_world.
  cbn [captures writers stdout length app].
  rewrite source_ok.
  unfold bind at 1, cap_isOpened, the_capture.
  cbn [captures nth open_capture cap_opened negb].
  unfold bind at 1, cap_get_fps, bind at 1, cap_get_width,
    bind at 1, cap_get_height, bind at 1, cap_get_frame_count, the_capture.
  cbn [captures nth cap_fps cap_width cap_height cap_frame_count].
  unfold bind at 1, VideoWriter, with_writers.
  cbn [captures writers stdout length app].
  unfold bind at 1, cap_remaining, the_capture.
  cbn [captures nth cap_pending].
  unfold open_capture.
  cbn [cap_fps cap_width cap_height cap_frame_count cap_pending].
  rewrite Hframes.
  unfold bind at 1.
  fold (capture_of v true (frame :: rest)).
  cbn [length].
  now rewrite contrast_loop_raises.
Qed.

End ContrastRun.

End RunFacts.

(* ================================================================== *)
(** * The reference resampler meets the contract                       *)
(* ================================================================== *)

Module ReferenceFacts.
Import Numpy Cv2.

Lemma round_IZR z : round (IZR z) = z.
Proof. unfold round. apply Zfloor_eq. lra. Qed.

Lemma blend_corner a b p00 p10 p01 p11 :
  a = 0 -> b = 0 -> blend a b p00 p10 p01 p11 = p00.
Proof.
  intros -> ->. unfold blend.
  replace (_ + _ + _ + _) with (IZR p00) by ring.
  apply round_IZR.
Qed.

Lemma sample_on_grid src x y :
  sample_bilinear src (IZR x, IZR y) = pixel_at src x y.
Proof.
  unfold sample_bilinear. rewrite !ZfloorZ.
  unfold blend_pixel.
  destruct (pixel_at src x y) as [[b00 g00] r00].
  destruct (pixel_at src (x + 1) y) as [[b10 g10] r10].
  destruct (pixel_at src x (y + 1)) as [[b01 g01] r01].
  destruct (pixel_at src (x + 1) (y + 1)) as [[b11 g11] r11].
  rewrite !blend_corner by ring. reflexivity.
Qed.

Lemma invert_identity p :
  affine (invertAffineTransform identity_matrix) p = p.
Proof.
  destruct p as [x y].
  unfold invertAffineTransform, identity_matrix, affine.
  destruct (Req_dec_T (1 * 1 - 0 * 0) 0) as [E | _]; [lra|].
  f_equal; field.
Qed.

Lemma map_nth_range {A : Type} (l : list A) (d : A) :
  map (fun i => nth (Z.to_nat i) l d) (range (Z.of_nat (length l))) = l.
Proof.
  unfold range. rewrite Nat2Z.id, map_map.
  apply nth_ext with (d := d) (d' := d).
  - now rewrite length_map, length_seq.
  - intros n Hn. rewrite length_map, length_seq in Hn.
    rewrite (nth_indep _ d (nth (Z.to_nat (Z.of_nat 0)) l d)).
    + rewrite (map_nth (fun i => nth (Z.to_nat (Z.of_nat i)) l d)).
      rewrite seq_nth by exact Hn. now rewrite Nat2Z.id.
    + now rewrite length_map, length_seq.
Qed.

Lemma range_nonneg n i : In i (range n) -> (0 <= i)%Z.
Proof.
  unfold range. intros H. apply in_map_iff in H.
  destruct H as [k [<- _]]. lia.
Qed.

Lemma resample_identity src w h :
  frame_dims src w h -> warpAffine_bilinear src identity_matrix (w, h) = src.
Proof.
  intros (Hw & Hh & Hrows). unfold warpAffine_bilinear. cbn [fst snd].
  rewrite <- Hh.
  rewrite <- (map_nth_range src []) at 2.
  apply map_ext_in. intros y Hy.
  assert (Hrow : Z.of_nat (length (nth (Z.to_nat y) src [])) = w).
  { unfold range in Hy. apply in_map_iff in Hy.
    destruct Hy as [k [<- Hk]]. apply in_seq in Hk.
    rewrite Nat2Z.id in *.
    rewrite Forall_forall in Hrows. apply Hrows, nth_In. lia. }
  rewrite <- Hrow.
  rewrite <- (map_nth_range (nth (Z.to_nat y) src []) black) at 2.
  apply map_ext_in. intros x Hx.
  rewrite invert_identity, sample_on_grid.
  unfold pixel_at.
  apply range_nonneg in Hx, Hy.
  apply Z.leb_le in Hx, Hy. now rewrite Hx, Hy.
Qed.

Lemma length_range_Z n : (0 <= n)%Z -> Z.of_nat (length (range n)) = n.
Proof.
  intros H. unfold range. rewrite length_map, length_seq. lia.
Qed.

Lemma resample_dsize src M w h :
  (0 <= w)%Z -> (0 <= h)%Z ->
  frame_dims (warpAffine_bilinear src M (w, h)) w h.
Proof.
  intros Hw Hh. unfold frame_dims, warpAffine_bilinear. cbn [fst snd].
  split; [exact Hw|]. split.
  - rewrite length_map. now apply length_range_Z.
  - apply Forall_map, Forall_forall. intros y _.
    rewrite length_map. now apply length_range_Z.
Qed.

Lemma reference_contract : ImgprocContract reference_imgproc.
Proof.
  constructor; cbn [warpAffine reference_imgproc].
  - apply resample_dsize.
  - apply resample_identity.
Qed.

End ReferenceFacts.

(* ================================================================== *)
(** * Properties of whole runs                                         *)
(* ================================================================== *)

Module PipelineFacts.
Import Numpy Cv2 Py Contrast Outputs Scenarios.
Import NumpyFacts ContrastFacts RotationFacts RunFacts ReferenceFacts.

(** ** Per-frame geometry *)

Lemma frame_dims_elementwise {A B : Type} (f : A -> B) a w h :
  frame_dims a w h -> frame_dims (elementwise f a) w h.
Proof.
  intros (Hw & Hh & Hrows). unfold frame_dims, elementwise.
  split; [exact Hw|]. split.
  - now rewrite length_map.
  - apply Forall_map. eapply Forall_impl; [|exact Hrows].
    intros row Hrow. now rewrite length_map.
Qed.

Lemma frame_dims_height {A : Type} (a : Array2 A) w h :
  frame_dims a w h -> (0 <= w)%Z /\ (0 <= h)%Z.
Proof. intros (Hw & Hh & _). split; [exact Hw | lia]. Qed.

Lemma adjusted_dims cv mode progress frame w h :
  frame_dims frame w h ->
  frame_dims (adjust_frame mode progress (cvtColor_BGR2GRAY cv frame)) w h.
Proof.
  intros Hd. unfold adjust_frame. rewrite apply_contrast_pointwise.
  apply frame_dims_elementwise. unfold cvtColor_BGR2GRAY.
  now apply frame_dims_elementwise.
Qed.

Lemma rotated_dims cv w h angle frame :
  ImgprocContract cv -> (0 <= w)%Z -> (0 <= h)%Z ->
  frame_dims (Exer3.rotate_normal cv w h angle frame) w h
  /\ frame_dims (Exer3.rotate_scaled cv w h angle frame) w h.
Proof.
  intros Hcv Hw Hh. unfold Exer3.rotate_normal, Exer3.rotate_scaled.
  split; now apply (warpAffine_dsize cv Hcv).
Qed.

Lemma rotation_matrix_at_zero center angle scale :
  angle = 0 -> scale = 1 ->
  getRotationMatrix2D center angle scale = identity_matrix.
Proof.
  intros -> ->. unfold getRotationMatrix2D, identity_matrix.
  replace (0 * PI / 180) with 0 by (unfold Rdiv; ring).
  rewrite cos_0, sin_0.
  repeat f_equal; ring.
Qed.


Lemma rotate_by_zero cv w h frame :
  ImgprocContract cv -> frame_dims frame w h ->
  Exer3.rotate_normal cv w h 0 frame = frame
  /\ Exer3.rotate_scaled cv w h 0 frame = frame.
Proof.
  intros Hcv Hd. unfold Exer3.rotate_normal, Exer3.rotate_scaled.
  rewrite (scaling_factor_multiple w h 0 (fmod_0 90)).
  rewrite !rotation_matrix_at_zero by lra.
  split; now apply (warpAffine_identity cv Hcv).
Qed.

(** ** Exercise 3, any usable codec *)

Lemma rotation_run_ok env cv input_path pn ps final_angle v :
  env_source env input_path = Some v ->
  codec_available env pn ps = true ->
  exists msgs pre out_normal out_scaled,
    Exer3.run env cv input_path pn ps final_angle
    = (Returned true,
       {| captures :=
            [capture_of v false
               (skipn (Z.to_nat (video_frame_count v)) (video_frames v))];
          writers := pre ++ [out_normal; out_scaled];
          stdout := msgs |})
    /\ Forall (fun o => wr_opened o = false /\ wr_written o = []) pre
    /\ wr_opened out_normal = false /\ wr_opened out_scaled = false
    /\ wr_written out_normal =
         normal_outputs cv final_angle (video_width v) (video_height v)
           (video_frame_count v)
           (combine (range (video_frame_count v)) (video_frames v))
    /\ wr_written out_scaled =
         scaled_outputs cv final_angle (video_width v) (video_height v)
           (video_frame_count v)
           (combine (range (video_frame_count v)) (video_frames v)).
Proof.
  intros Hsrc Hcodec. unfold codec_available in Hcodec.
  destruct (env_sink env pn mp4v && env_sink env ps mp4v) eqn:Hp.
  - apply andb_prop in Hp. destruct Hp as [Hn Hs].
    destruct (rotation_primary env cv input_path pn ps final_angle v
                Hsrc Hn Hs) as [msgs E].
    eexists. exists []. do 2 eexists.
    split; [exact E|]. repeat split. constructor.
  - cbn [orb] in Hcodec. apply andb_prop in Hcodec.
    destruct Hcodec as [Hn Hs].
    destruct (rotation_fallback env cv input_path pn ps final_angle v
                Hsrc Hp Hn Hs) as [msgs E].
    eexists. eexists [_; _]. do 2 eexists.
    split; [exact E|]. repeat split.
    repeat constructor.
Qed.

(** Exercise 3 never raises: the loop runs only when
    [total_frames >= 1], and line 111 divides only when
    [total_frames > 1]. *)
Lemma rotation_never_raises env cv input_path pn ps final_angle :
  exists b w',
    Exer3.run env cv input_path pn ps final_angle = (Returned b, w').
Proof.
  destruct (env_source env input_path) as [v|] eqn:Hsrc.
  - destruct (codec_available env pn ps) eqn:Hc.
    + destruct (rotation_run_ok env cv input_path pn ps final_angle v
                  Hsrc Hc) as (msgs & pre & o1 & o2 & E & _).
      do 2 eexists. exact E.
    + unfold codec_available in Hc. apply orb_false_elim in Hc.
      destruct Hc as [Hp Hf].
      do 2 eexists.
      exact (rotation_no_codec env cv input_path pn ps final_angle v
               Hsrc Hp Hf).
  - do 2 eexists.
    exact (rotation_no_source env cv input_path pn ps final_angle Hsrc).
Qed.

(** Exercise 3, sink-open failure: the four writer objects are the two
    primary and the two fallback ones, nothing more is tried, nothing
    is written, and the failure is printed. *)
Lemma rotation_falls_back_once env cv input_path pn ps final_angle v :
  env_source env input_path = Some v ->
  codec_available env pn ps = false ->
  exists w',
    Exer3.run env cv input_path pn ps final_angle = (Returned false, w')
    /\ map wr_fourcc (writers w') = [mp4v; mp4v; XVID; XVID]
    /\ Forall (fun o => wr_written o = []) (writers w')
    /\ In Msg_no_codec (stdout w').
Proof.
  intros Hsrc Hc. unfold codec_available in Hc.
  apply orb_false_elim in Hc. destruct Hc as [Hp Hf].
  eexists. split.
  - exact (rotation_no_codec env cv input_path pn ps final_angle v
             Hsrc Hp Hf).
  - cbn [writers stdout map wr_fourcc]. repeat split.
    + repeat constructor.
    + simpl. auto.
Qed.

(** Exercise 3 releases the capture and every writer whenever it
    reaches the end of the function. *)
Lemma rotation_success_releases env cv input_path pn ps final_angle v :
  env_source env input_path = Some v ->
  codec_available env pn ps = true ->
  all_released (snd (Exer3.run env cv input_path pn ps final_angle)).
Proof.
  intros Hsrc Hc.
  destruct (rotation_run_ok env cv input_path pn ps final_angle v Hsrc Hc)
    as (msgs & pre & o1 & o2 & E & Hpre & H1 & H2 & _).
  rewrite E. unfold all_released. cbn [snd captures writers]. split.
  - repeat constructor.
  - apply Forall_app. split.
    + eapply Forall_impl; [|exact Hpre]. now intros o [Ho _].
    + repeat constructor; assumption.
Qed.

(** X16.  Exercise 1 releases its capture and its writer whenever it reaches
    the end of the function. *)
Lemma contrast_completion_releases env cv input_path output_path mode v :
  env_source env input_path = Some v ->
  video_frames v = [] \/ video_frame_count v <> 0%Z ->
  all_released (snd (Exer1.run env cv input_path output_path mode)).
Proof.
  intros Hsrc Hnz.
  rewrite (contrast_completes env cv input_path output_path mode v Hsrc Hnz).
  unfold all_released. cbn [snd captures writers].
  split; repeat constructor.
Qed.

(** The bound given to the [while] loop of exercise 1 is never
    exhausted: a run returns or raises. *)
Lemma contrast_never_out_of_fuel env cv input_path output_path mode :
  fst (Exer1.run env cv input_path output_path mode) <> OutOfFuel.
Proof.
  destruct (env_source env input_path) as [v|] eqn:Hsrc.
  - destruct (video_frames v) as [|frame rest] eqn:Hframes.
    + rewrite (contrast_completes env cv input_path output_path mode v
                 Hsrc (or_introl Hframes)). discriminate.
    + destruct (Z.eq_dec (video_frame_count v) 0) as [Hz | Hnz].
      * rewrite (contrast_raises env cv input_path output_path mode v
                   Hsrc frame rest Hz Hframes). discriminate.
      * rewrite (contrast_completes env cv input_path output_path mode v
                   Hsrc (or_intror Hnz)). discriminate.
  - rewrite (contrast_no_source env cv input_path output_path mode Hsrc).
    discriminate.
Qed.

(** ** Dimensions of what is written *)

Lemma contrast_outputs_dims cv mode total_frames w h :
  forall frames frame_idx,
    Forall (fun f => frame_dims f w h) frames ->
    Forall (fun f => written_dims f w h)
           (contrast_outputs cv mode total_frames frame_idx frames).
Proof.
  induction frames as [|frame rest IH]; intros frame_idx Hall;
    cbn [contrast_outputs]; [constructor|].
  inversion Hall as [|? ? Hf Hrest]; subst.
  constructor; [|now apply IH].
  cbn [written_dims]. now apply adjusted_dims.
Qed.

Lemma rotation_outputs_dims cv final_angle total_frames w h indices frames :
  ImgprocContract cv ->
  Forall (fun f => frame_dims f w h) frames ->
  Forall (fun f => written_dims f w h)
         (normal_outputs cv final_angle w h total_frames
            (combine indices frames))
  /\ Forall (fun f => written_dims f w h)
            (scaled_outputs cv final_angle w h total_frames
               (combine indices frames)).
Proof.
  intros Hcv Hall. rewrite Forall_forall in Hall.
  unfold normal_outputs, scaled_outputs.
  split; apply Forall_map, Forall_forall; intros [i f] Hin;
    apply in_combine_r in Hin;
    destruct (frame_dims_height _ _ _ (Hall f Hin)) as [Hw Hh];
    cbn [written_dims fst snd];
    now apply rotated_dims.
Qed.


Lemma tiny_frame_dims : frame_dims tiny_frame 2 1.
Proof.
  unfold frame_dims, tiny_frame. split; [lia|]. split; [reflexivity|].
  repeat constructor.
Qed.


(** C6.  Every transform keeps the frame's width and height: the
    contrast adjuster (grayscale conversion included), the normal
    rotation and the scaled rotation each turn a frame of the width
    and height the source reports into a frame of that same width and
    height; and so does every frame either pipeline writes, for a
    source whose frames all have the reported size. *)
Theorem frame_dimensions_preserved :
  forall (cv : Imgproc),
    ImgprocContract cv ->
    (forall (frame : ColorFrame) (w h : Z),
        frame_dims frame w h ->
        (forall mode progress,
            frame_dims (adjust_frame mode progress
                          (cvtColor_BGR2GRAY cv frame)) w h)
        /\ (forall angle,
               frame_dims (Exer3.rotate_normal cv w h angle frame) w h)
        /\ (forall angle,
               frame_dims (Exer3.rotate_scaled cv w h angle frame) w h))
    /\ (forall (env : Env) (input_path : string) (v : Video),
           env_source env input_path = Some v ->
           Forall (fun f => frame_dims f (video_width v) (video_height v))
                  (video_frames v) ->
           (forall output_path mode,
               Forall (fun o =>
                         Forall (fun f => written_dims f (video_width v)
                                            (video_height v))
                                (wr_written o))
                      (writers (snd (Exer1.run env cv input_path
                                       output_path mode))))
           /\ (forall pn ps final_angle,
                  Forall (fun o =>
                            Forall (fun f => written_dims f (video_width v)
                                               (video_height v))
                                   (wr_written o))
                         (writers (snd (Exer3.run env cv input_path
                                          pn ps final_angle))))).
Proof.
  intros cv Hcv. split.
  - intros frame w h Hd.
    destruct (frame_dims_height _ _ _ Hd) as [Hw Hh].
    split; [intros; now apply adjusted_dims|].
    split; intros angle; now apply rotated_dims.
  - intros env input_path v Hsrc Hall. split.
    + intros output_path mode.
      destruct (video_frames v) as [|frame rest] eqn:Hframes.
      * rewrite (contrast_completes env cv input_path output_path mode v
                   Hsrc (or_introl Hframes)).
        cbn [snd writers]. repeat constructor.
        rewrite Hframes. now destruct (env_sink env output_path mp4v).
      * destruct (Z.eq_dec (video_frame_count v) 0) as [Hz | Hnz].
        -- rewrite (contrast_raises env cv input_path output_path mode v
                      Hsrc frame rest Hz Hframes).
           cbn [snd writers wr_written]. repeat constructor.
        -- rewrite (contrast_completes env cv input_path output_path mode v
                      Hsrc (or_intror Hnz)).
           cbn [snd writers wr_written]. repeat constructor.
           destruct (env_sink env output_path mp4v); [|constructor].
           apply contrast_outputs_dims. now rewrite Hframes.
    + intros pn ps final_angle.
      destruct (codec_available env pn ps) eqn:Hc.
      * destruct (rotation_run_ok env cv input_path pn ps final_angle v
                    Hsrc Hc)
          as (msgs & pre & o1 & o2 & E & Hpre & _ & _ & Hn & Hs).
        rewrite E. cbn [snd writers].
        destruct (rotation_outputs_dims cv final_angle (video_frame_count v)
                    (video_width v) (video_height v)
                    (range (video_frame_count v)) (video_frames v) Hcv Hall)
          as [Dn Ds].
        apply Forall_app. split.
        -- eapply Forall_impl; [|exact Hpre].
           intros o [_ Ho]. rewrite Ho. constructor.
        -- constructor; [rewrite Hn; exact Dn|].
           constructor; [rewrite Hs; exact Ds | constructor].
      * destruct (rotation_falls_back_once env cv input_path pn ps
                    final_angle v Hsrc Hc) as (w' & E & _ & Hnone & _).
        rewrite E. cbn [snd].
        eapply Forall_impl; [|exact Hnone].
        intros o Ho. rewrite Ho. constructor.
Qed.

Lemma frame_dimensions_preserved_witness :
  frame_dims tiny_frame 2 1
  /\ frame_dims (adjust_frame "linear" (1 / 2)
                   (cvtColor_BGR2GRAY reference_imgproc tiny_frame)) 2 1
  /\ frame_dims (Exer3.rotate_normal reference_imgproc 2 1 45 tiny_frame) 2 1
  /\ frame_dims (Exer3.rotate_scaled reference_imgproc 2 1 45 tiny_frame) 2 1
  /\ Forall (fun o => Forall (fun f => written_dims f 2 1) (wr_written o))
            (writers (snd (Exer3.run one_frame_env reference_imgproc
                             input_path "normal.mp4" "scaled.mp4" 360))).
Proof.
  destruct (frame_dimensions_preserved reference_imgproc reference_contract)
    as [Hframe Hrun].
  destruct (Hframe tiny_frame 2%Z 1%Z tiny_frame_dims) as (Hc & Hn & Hs).
  split; [exact tiny_frame_dims|].
  split; [apply Hc|]. split; [apply Hn|]. split; [apply Hs|].
  assert (Hall : Forall (fun f => frame_dims f 2 1) [tiny_frame]).
  { constructor; [exact tiny_frame_dims | constructor]. }
  destruct (Hrun one_frame_env input_path (tiny_clip 1 [tiny_frame])
              eq_refl Hall) as [_ Hrot].
  apply Hrot.
Defined.

(** ** Grayscale output of exercise 1 *)

Lemma contrast_outputs_gray cv mode total_frames :
  forall frames frame_idx,
    Forall is_gray (contrast_outputs cv mode total_frames frame_idx frames).
Proof.
  induction frames as [|frame rest IH]; intros frame_idx;
    cbn [contrast_outputs]; constructor; [exact I | apply IH].
Qed.

Lemma contrast_outputs_length cv mode total_frames :
  forall frames frame_idx,
    length (contrast_outputs cv mode total_frames frame_idx frames)
    = length frames.
Proof.
  induction frames as [|frame rest IH]; intros frame_idx;
    cbn [contrast_outputs length]; [reflexivity|].
  now rewrite IH.
Qed.

Lemma contrast_outputs_nth cv mode total_frames :
  forall frames frame_idx n frame,
    nth_error frames n = Some frame ->
    nth_error (contrast_outputs cv mode total_frames frame_idx frames) n
    = Some (Gray (adjust_frame mode
                    (IZR (frame_idx + Z.of_nat n) / IZR total_frames)
                    (cvtColor_BGR2GRAY cv frame))).
Proof.
  induction frames as [|f rest IH]; intros frame_idx n frame Hn.
  - destruct n; discriminate.
  - destruct n as [|n]; cbn [contrast_outputs nth_error] in *.
    + injection Hn as ->. now rewrite Z.add_0_r.
    + rewrite (IH (frame_idx + 1)%Z n frame Hn).
      replace (frame_idx + Z.of_nat (S n))%Z
        with (frame_idx + 1 + Z.of_nat n)%Z by lia.
      reflexivity.
Qed.

(** C10.  [process_video] takes the 3-channel frames the capture
    delivers, converts each one to grayscale before the contrast
    transform, and opens its writer with [isColor=False]: in the world
    any run leaves behind, every writer is single-channel and every
    frame that reached it is a grayscale frame, namely the contrast
    transform of the grayscale conversion of the source frame of the
    same index. *)
Theorem contrast_output_is_grayscale :
  forall (env : Env) (cv : Imgproc)
         (input_path output_path contrast_mode : string),
    Forall (fun o => wr_isColor o = false /\ Forall is_gray (wr_written o))
           (writers (snd (Exer1.run env cv input_path output_path
                            contrast_mode)))
    /\ (forall v,
           env_source env input_path = Some v ->
           video_frames v = [] \/ video_frame_count v <> 0%Z ->
           env_sink env output_path mp4v = true ->
           exists out,
             writers (snd (Exer1.run env cv input_path output_path
                             contrast_mode)) = [out]
             /\ wr_isColor out = false
             /\ length (wr_written out) = length (video_frames v)
             /\ forall n frame,
                  nth_error (video_frames v) n = Some frame ->
                  nth_error (wr_written out) n
                  = Some (Gray (adjust_frame contrast_mode
                                  (IZR (Z.of_nat n)
                                   / IZR (video_frame_count v))
                                  (cvtColor_BGR2GRAY cv frame)))).
Proof.
  intros env cv input_path output_path mode. split.
  - destruct (env_source env input_path) as [v|] eqn:Hsrc.
    + destruct (video_frames v) as [|frame rest] eqn:Hframes.
      * rewrite (contrast_completes env cv input_path output_path mode v
                   Hsrc (or_introl Hframes)).
        cbn [snd writers]. repeat constructor.
        cbn [wr_written]. rewrite Hframes.
        now destruct (env_sink env output_path mp4v).
      * destruct (Z.eq_dec (video_frame_count v) 0) as [Hz | Hnz].
        -- rewrite (contrast_raises env cv input_path output_path mode v
                      Hsrc frame rest Hz Hframes).
           cbn [snd writers]. repeat constructor.
        -- rewrite (contrast_completes env cv input_path output_path mode v
                      Hsrc (or_intror Hnz)).
           cbn [snd writers]. repeat constructor.
           cbn [wr_written].
           destruct (env_sink env output_path mp4v); [|constructor].
           apply contrast_outputs_gray.
    + rewrite (contrast_no_source env cv input_path output_path mode Hsrc).
      constructor.
  - intros v Hsrc Hnz Hsink.
    rewrite (contrast_completes env cv input_path output_path mode v
               Hsrc Hnz).
    rewrite Hsink. cbn [snd writers].
    eexists. split; [reflexivity|]. cbn [wr_isColor wr_written].
    split; [reflexivity|]. split.
    + apply contrast_outputs_length.
    + intros n frame Hn.
      now rewrite (contrast_outputs_nth cv mode _ _ 0%Z n frame Hn).
Qed.

Lemma contrast_output_is_grayscale_witness :
  exists out,
    writers (snd (Exer1.run one_frame_env reference_imgproc input_path
                    "out.mp4" "linear")) = [out]
    /\ wr_isColor out = false
    /\ nth_error (wr_written out) 0
       = Some (Gray (adjust_frame "linear" (0 / 1)
                       (cvtColor_BGR2GRAY reference_imgproc tiny_frame))).
Proof.
  destruct (contrast_output_is_grayscale one_frame_env reference_imgproc
              input_path "out.mp4" "linear") as [_ H].
  assert (Hsrc : env_source one_frame_env input_path
                 = Some (tiny_clip 1 [tiny_frame])) by reflexivity.
  assert (Hnz : video_frames (tiny_clip 1 [tiny_frame]) = []
                \/ video_frame_count (tiny_clip 1 [tiny_frame]) <> 0%Z)
    by (right; discriminate).
  assert (Hsink : env_sink one_frame_env "out.mp4" mp4v = true)
    by reflexivity.
  destruct (H (tiny_clip 1 [tiny_frame]) Hsrc Hnz Hsink)
    as (out & Hw & Hc & _ & Hn).
  exists out. split; [exact Hw|]. split; [exact Hc|].
  exact (Hn 0%nat tiny_frame eq_refl).
Defined.

(** ** Where the scripts depart from the specification *)

(** C7.  [process_video] divides by [total_frames] without a guard: on
    a source that reports a frame count of 0 and still delivers a
    frame, the progress computation of line 32 raises
    [ZeroDivisionError] on the first frame, before anything is written
    or released. *)
Theorem process_video_divides_by_zero :
  Exer1.run uncounted_env reference_imgproc input_path "out.mp4" "linear"
  = (Raised ZeroDivisionError,
     {| captures := [capture_of (tiny_clip 0 [tiny_frame]) true []];
        writers := [Build_Writer "out.mp4" mp4v 30 (2, 1)%Z false true []];
        stdout := [] |}).
Proof.
  assert (Hsrc : env_source uncounted_env input_path
                 = Some (tiny_clip 0 [tiny_frame])) by reflexivity.
  rewrite (contrast_raises uncounted_env reference_imgproc input_path
             "out.mp4" "linear" (tiny_clip 0 [tiny_frame]) Hsrc
             tiny_frame [] eq_refl eq_refl).
  reflexivity.
Qed.

(** C8.  [process_video] has no fallback: when the writer cannot be
    opened with the primary codec, the run creates no second writer,
    goes through the whole source, writes nothing, and ends by printing
    that the output was saved. *)
Theorem process_video_has_no_fallback :
  Exer1.run unwritable_env reference_imgproc input_path "out.mp4" "linear"
  = (Returned tt,
     {| captures := [capture_of (tiny_clip 1 [tiny_frame]) false []];
        writers := [Build_Writer "out.mp4" mp4v 30 (2, 1)%Z false false []];
        stdout := [Msg_finished "linear" "out.mp4"] |}).
Proof.
  assert (Hsrc : env_source unwritable_env input_path
                 = Some (tiny_clip 1 [tiny_frame])) by reflexivity.
  assert (Hnz : video_frames (tiny_clip 1 [tiny_frame]) = []
                \/ video_frame_count (tiny_clip 1 [tiny_frame]) <> 0%Z)
    by (right; discriminate).
  rewrite (contrast_completes unwritable_env reference_imgproc input_path
             "out.mp4" "linear" (tiny_clip 1 [tiny_frame]) Hsrc Hnz).
  reflexivity.
Qed.

(** C9.  When neither codec opens both writers,
    [apply_gradual_rotation] returns [False] from line 99 with the
    capture it opened still open: [cap.release()] is reached only at
    the end of the function. *)
Theorem rotation_returns_with_open_capture :
  exists w',
    Exer3.run unwritable_env reference_imgproc input_path
              "normal.mp4" "scaled.mp4" 360 = (Returned false, w')
    /\ cap_opened (the_capture w' 0) = true
    /\ ~ all_released w'.
Proof.
  assert (Hsrc : env_source unwritable_env input_path
                 = Some (tiny_clip 1 [tiny_frame])) by reflexivity.
  eexists. split.
  - apply (rotation_no_codec unwritable_env reference_imgproc input_path
             "normal.mp4" "scaled.mp4" 360 (tiny_clip 1 [tiny_frame]) Hsrc);
      reflexivity.
  - split; [reflexivity|].
    intros [Hcaps _]. inversion Hcaps as [|c cs Hc _]. discriminate Hc.
Qed.

End PipelineFacts.

(* ================================================================== *)
(** * More on the contrast curves and the stretch                      *)
(* ================================================================== *)

Module CurveFacts.
Import Numpy Contrast NumpyFacts ContrastFacts.

Lemma alpha_linear p : contrast_alpha "linear" p = 0.8 + (1.5 - 0.8) * p.
Proof. reflexivity. Qed.

Lemma alpha_sine p :
  contrast_alpha "sine" p = 1.15 + 0.35 * sin (2 * PI * p * 2).
Proof. reflexivity. Qed.

Lemma alpha_cases mode p :
  contrast_alpha mode p = contrast_alpha "linear" p
  \/ contrast_alpha mode p = contrast_alpha "sine" p
  \/ contrast_alpha mode p = 1.
Proof.
  rewrite alpha_linear, alpha_sine. unfold contrast_alpha.
  destruct (String.eqb mode "linear"); [now left|].
  destruct (String.eqb mode "sine"); [right; now left|].
  right; right; lra.
Qed.




Lemma clamp_monotone x y : x <= y -> clamp x 0 255 <= clamp y 0 255.
Proof.
  intros H. rewrite !clamp_min_max by lra.
  unfold Rmin, Rmax.
  destruct (Rle_dec x 0), (Rle_dec y 0);
    repeat match goal with
           | |- context [Rle_dec ?a ?b] => destruct (Rle_dec a b)
           end; lra.
Qed.

Lemma spec_sample_monotone alpha m s1 s2 :
  0 <= alpha -> (s1 <= s2)%Z ->
  (spec_sample alpha m s1 <= spec_sample alpha m s2)%Z.
Proof.
  intros Ha Hs. unfold spec_sample.
  apply Zfloor_le, clamp_monotone.
  apply IZR_le in Hs. nra.
Qed.

Lemma alpha_nonneg mode p : 0 <= p -> 0 <= contrast_alpha mode p.
Proof.
  intros Hp. destruct (alpha_cases mode p) as [E | [E | E]]; rewrite E.
  - rewrite alpha_linear. lra.
  - rewrite alpha_sine. pose proof (SIN_bound (2 * PI * p * 2)). lra.
  - lra.
Qed.

(** X3.  The contrast adjuster applies one and the same non-decreasing map to
    every sample of a frame: it never inverts the order of two
    intensities (for a progress value that is not negative, which makes
    the factor non-negative in every mode). *)
Theorem adjust_frame_keeps_order :
  forall (contrast_mode : string) (progress : R) (gray : GrayFrame),
    0 <= progress ->
    exists f : Z -> Z,
      adjust_frame contrast_mode progress gray = elementwise f gray
      /\ forall s1 s2, (s1 <= s2)%Z -> (f s1 <= f s2)%Z.
Proof.
  intros mode p gray Hp.
  exists (spec_sample (contrast_alpha mode p) (mean gray)). split.
  - unfold adjust_frame. now rewrite apply_contrast_spec.
  - intros s1 s2. apply spec_sample_monotone. now apply alpha_nonneg.
Qed.

Lemma adjust_frame_keeps_order_witness :
  exists f : Z -> Z,
    adjust_frame "sine" (1 / 3) [[5; 200]; [17; 90]]%Z
    = elementwise f [[5; 200]; [17; 90]]%Z
    /\ forall s1 s2, (s1 <= s2)%Z -> (f s1 <= f s2)%Z.
Proof.
  apply adjust_frame_keeps_order. lra.
Defined.

Lemma sum_constant c l :
  Forall (fun s => s = c) l ->
  fold_right Z.add 0%Z l = (c * Z.of_nat (length l))%Z.
Proof.
  induction 1 as [|s l Hs _ IH]; cbn [fold_right length]; [lia|].
  rewrite IH, Hs. lia.
Qed.

Lemma concat_constant {A : Type} (P : A -> Prop) (a : list (list A)) :
  Forall (Forall P) a -> Forall P (concat a).
Proof.
  induction 1 as [|row a Hrow _ IH]; cbn [concat]; [constructor|].
  apply Forall_app. now split.
Qed.

Lemma mean_constant c gray :
  Forall (Forall (fun s => s = c)) gray -> (0 < size gray)%nat ->
  mean gray = IZR c.
Proof.
  intros Hc Hn. unfold mean, Numpy.sum.
  rewrite (sum_constant c) by now apply concat_constant.
  fold (size gray). rewrite mult_IZR, <- INR_IZR_INZ.
  field. apply not_0_INR. lia.
Qed.

(** X4.  A frame whose samples all have the same 8-bit value is left
    unchanged, whatever the mode and the progress value. *)
Theorem uniform_frame_unchanged :
  forall (contrast_mode : string) (progress : R) (c : Z) (gray : GrayFrame),
    is_uint8 c ->
    Forall (Forall (fun s => s = c)) gray ->
    adjust_frame contrast_mode progress gray = gray.
Proof.
  intros mode p c gray Hc Hall.
  unfold adjust_frame. rewrite apply_contrast_pointwise.
  transitivity (elementwise (fun s : Z => s) gray); [|apply elementwise_id].
  unfold elementwise.
  apply map_ext_in. intros row Hrow.
  apply map_ext_in. intros s Hs.
  assert (Hsize : (0 < size gray)%nat).
  { unfold size. destruct (concat gray) eqn:E; [|simpl; lia].
    exfalso. assert (Hin : In s (concat gray)).
    { apply in_concat. now exists row. }
    now rewrite E in Hin. }
  rewrite (mean_constant c gray Hall Hsize).
  rewrite Forall_forall in Hall. specialize (Hall row Hrow).
  rewrite Forall_forall in Hall. rewrite (Hall s Hs).
  replace (contrast_alpha mode p * (IZR c - IZR c) + IZR c)
    with (1 * (IZR c - IZR c) + IZR c) by ring.
  now apply identity_sample.
Qed.

Lemma uniform_frame_unchanged_witness :
  adjust_frame "linear" (3 / 4) [[77; 77; 77]; [77; 77; 77]]%Z
  = [[77; 77; 77]; [77; 77; 77]]%Z.
Proof.
  apply (uniform_frame_unchanged "linear" (3 / 4) 77%Z).
  - unfold is_uint8. lia.
  - repeat constructor.
Defined.

End CurveFacts.

(* ================================================================== *)
(** * More on the rotation sweep and the scale-to-fit factor           *)
(* ================================================================== *)

Module SweepFacts.
Import Numpy Cv2 Py Outputs Exer3.
Import RotationFacts PipelineFacts.

(** X5.  Over a clip of more than one frame the progress of line 111 runs
    from 0 at the first frame to exactly 1 at the last one, strictly
    increasing, without raising; the angle therefore runs from 0 to
    [final_angle]. *)
Theorem rotation_progress_sweep :
  forall (total_frames frame_idx : Z) (final_angle : R) (w : World),
    (1 < total_frames)%Z ->
    (0 <= frame_idx <= total_frames - 1)%Z ->
    exists progress,
      progress_of frame_idx total_frames w = (Returned progress, w)
      /\ 0 <= progress <= 1
      /\ (frame_idx = 0%Z -> final_angle * progress = 0)
      /\ (frame_idx = (total_frames - 1)%Z ->
          final_angle * progress = final_angle)
      /\ forall later progress',
           (frame_idx < later)%Z ->
           progress_of later total_frames w = (Returned progress', w) ->
           progress < progress'.
Proof.
  intros T i fa w HT Hi.
  assert (HT' : (T >? 1)%Z = true) by (apply Z.gtb_lt; lia).
  assert (Hd : 0 < IZR (T - 1)) by (apply IZR_lt; lia).
  exists (IZR i / IZR (T - 1)).
  split; [rewrite progress_of_value, HT'; reflexivity|].
  assert (H0 : 0 <= IZR i) by (apply IZR_le; lia).
  assert (H1 : IZR i <= IZR (T - 1)) by (apply IZR_le; lia).
  split.
  { split.
    - apply Rmult_le_pos; [exact H0 | left; now apply Rinv_0_lt_compat].
    - apply (Rmult_le_reg_r (IZR (T - 1))); [exact Hd|].
      unfold Rdiv. rewrite Rmult_assoc, Rinv_l by lra. lra. }
  split; [intros ->; unfold Rdiv; ring|].
  split; [intros ->; field; lra|].
  intros j p' Hj E. rewrite progress_of_value, HT' in E.
  injection E as <-.
  apply IZR_lt in Hj.
  unfold Rdiv. apply Rmult_lt_compat_r; [now apply Rinv_0_lt_compat | exact Hj].
Qed.

Lemma rotation_progress_sweep_witness :
  exists progress,
    progress_of 149 150 empty_world = (Returned progress, empty_world)
    /\ 360 * progress = 360.
Proof.
  destruct (rotation_progress_sweep 150 149 360 empty_world)
    as (p & E & _ & _ & Hlast & _); [lia | lia |].
  exists p. split; [exact E | now apply Hlast].
Defined.





Lemma cos_sin_full_turns (k : Z) :
  cos (360 * IZR k * PI / 180) = 1 /\ sin (360 * IZR k * PI / 180) = 0.
Proof.
  assert (Hnat : forall n : nat,
             cos (360 * INR n * PI / 180) = 1
             /\ sin (360 * INR n * PI / 180) = 0).
  { intros n.
    replace (360 * INR n * PI / 180) with (0 + 2 * INR n * PI) by field.
    rewrite cos_period, sin_period. split; [apply cos_0 | apply sin_0]. }
  destruct (Z_le_gt_dec 0 k) as [Hk | Hk].
  - rewrite <- (Z2Nat.id k Hk), <- INR_IZR_INZ. apply Hnat.
  - replace (360 * IZR k * PI / 180)
      with (- (360 * IZR (- k) * PI / 180)) by (rewrite opp_IZR; field).
    rewrite cos_neg, sin_neg.
    rewrite <- (Z2Nat.id (- k)) by lia. rewrite <- INR_IZR_INZ.
    destruct (Hnat (Z.to_nat (- k))) as [Hc Hs]. rewrite Hc, Hs.
    split; [reflexivity | ring].
Qed.

(** X7.  A whole number of full turns changes nothing: both variants return
    the input frame (frames of the reported size, resampler as
    contracted), as they do at angle 0.  With the default
    [final_angle = 360] this is the case of the last frame of a sweep. *)
Theorem full_turn_is_identity :
  forall (cv : Imgproc) (width height k : Z) (frame : ColorFrame),
    ImgprocContract cv ->
    frame_dims frame width height ->
    rotate_normal cv width height (360 * IZR k) frame = frame
    /\ rotate_scaled cv width height (360 * IZR k) frame = frame.
Proof.
  intros cv W H k frame Hcv Hd.
  assert (Hm : fmod (360 * IZR k) 90 = 0).
  { apply fmod_90_zero. exists (4 * k)%Z. rewrite mult_IZR. ring. }
  assert (HM : forall scale, scale = 1 ->
             getRotationMatrix2D (W / 2, H / 2)%Z (360 * IZR k) scale
             = identity_matrix).
  { intros scale ->. unfold getRotationMatrix2D, identity_matrix.
    destruct (cos_sin_full_turns k) as [Hc Hs]. rewrite Hc, Hs.
    repeat f_equal; ring. }
  unfold rotate_normal, rotate_scaled.
  rewrite (scaling_factor_multiple W H _ Hm).
  rewrite !HM by lra.
  split; now apply (warpAffine_identity cv Hcv).
Qed.

Lemma full_turn_is_identity_witness :
  rotate_normal reference_imgproc 2 1 (360 * 1) Scenarios.tiny_frame
  = Scenarios.tiny_frame
  /\ rotate_scaled reference_imgproc 2 1 (360 * 1) Scenarios.tiny_frame
     = Scenarios.tiny_frame.
Proof.
  apply (full_turn_is_identity reference_imgproc 2 1 1 Scenarios.tiny_frame).
  - exact ReferenceFacts.reference_contract.
  - exact tiny_frame_dims.
Defined.

Lemma cos_sin_quarter_turns (k : Z) :
  cos ((90 + 180 * IZR k) * PI / 180) = 0
  /\ Rabs (sin ((90 + 180 * IZR k) * PI / 180)) = 1.
Proof.
  set (x := (90 + 180 * IZR k) * PI / 180).
  assert (Hc : cos x = 0).
  { apply cos_eq_0_1. exists k. unfold x. field. }
  split; [exact Hc|].
  pose proof (sin2_cos2 x) as H. unfold Rsqr in H. rewrite Hc in H.
  unfold Rabs. destruct (Rcase_abs (sin x)); nra.
Qed.

(** X8.  At a quarter turn (90 degrees plus any number of half turns) the
    script takes the factor 1: the scaled variant is the normal one, and
    the bounding box of the rotated source rectangle is [H] wide and [W]
    high, which exceeds the canvas as soon as it is not square. *)
Theorem quarter_turn_is_not_scaled :
  forall (cv : Imgproc) (W H k : Z) (frame : ColorFrame),
    let theta := 90 + 180 * IZR k in
    let M := getRotationMatrix2D (W / 2, H / 2)%Z theta
               (scaling_factor_of W H theta) in
    scaling_factor_of W H theta = 1
    /\ rotate_scaled cv W H theta frame = rotate_normal cv W H theta frame
    /\ ((0 < W)%Z -> (0 < H)%Z ->
        bbox_width M (IZR W) (IZR H) = IZR H
        /\ bbox_height M (IZR W) (IZR H) = IZR W
        /\ ((H < W)%Z -> IZR H < bbox_height M (IZR W) (IZR H))
        /\ ((W < H)%Z -> IZR W < bbox_width M (IZR W) (IZR H))).
Proof.
  intros cv W H k frame theta M.
  assert (Hm : fmod theta 90 = 0).
  { apply fmod_90_zero. exists (1 + 2 * k)%Z.
    unfold theta. rewrite plus_IZR, mult_IZR. ring. }
  assert (Hone : scaling_factor_of W H theta = 1)
    by now apply scaling_factor_multiple.
  split; [exact Hone|]. split.
  { unfold rotate_scaled, rotate_normal. rewrite Hone.
    replace 1.0 with 1 by lra. reflexivity. }
  intros HW HH. apply IZR_lt in HW, HH.
  unfold M. rewrite bbox_width_formula, bbox_height_formula, Hone.
  destruct (cos_sin_quarter_turns k) as [Hc Hs]. fold theta in Hc, Hs.
  rewrite Hc. rewrite !Rmult_1_l, !Rmult_0_l, Rabs_R0.
  rewrite !Rabs_mult, Hs.
  rewrite (Rabs_pos_eq (IZR W)), (Rabs_pos_eq (IZR H)) by lra.
  repeat split; try lra.
  - intros Hlt. apply IZR_lt in Hlt. lra.
  - intros Hlt. apply IZR_lt in Hlt. lra.
Qed.

Lemma quarter_turn_is_not_scaled_witness :
  scaling_factor_of 640 480 (90 + 180 * 0) = 1
  /\ IZR 480
     < bbox_height
         (getRotationMatrix2D (320, 240)%Z (90 + 180 * 0)
            (scaling_factor_of 640 480 (90 + 180 * 0))) 640 480.
Proof.
  destruct (quarter_turn_is_not_scaled reference_imgproc 640 480 0
              Scenarios.tiny_frame) as (Hone & _ & H).
  split; [exact Hone|].
  destruct H as (_ & _ & Hh & _); [lia | lia |].
  apply Hh. lia.
Defined.

End SweepFacts.

(* ================================================================== *)
(** * Runs started in a world that already holds objects               *)
(* ================================================================== *)

Module ComposeFacts.
Import Numpy Cv2 Py Compose.
Local Open Scope py_scope.

Lemma after_empty old : after old empty_world = old.
Proof.
  destruct old as [cs ws out]. unfold after, empty_world.
  cbn [captures writers stdout]. now rewrite !app_nil_r.
Qed.

Lemma update_behind {A : Type} (pre l : list A) f i :
  update (length pre + i) f (pre ++ l) = pre ++ update i f l.
Proof.
  unfold update.
  rewrite firstn_app_2, nth_error_app2 by lia.
  replace (length pre + i - length pre)%nat with i by lia.
  rewrite <- app_assoc. f_equal. f_equal.
  destruct (nth_error l i); [|reflexivity].
  f_equal. replace (S (length pre + i)) with (length pre + S i)%nat by lia.
  now rewrite skipn_app, skipn_all2, Nat.add_comm, Nat.add_sub by lia.
Qed.

Lemma nth_behind {A : Type} (pre l : list A) i d :
  nth (length pre + i) (pre ++ l) d = nth i l d.
Proof. apply app_nth2_plus. Qed.

Section Simulation.
Variable old : World.

Lemma sim_ret {A : Type} (a : A) : simulates old (fun x => x) (ret a) (ret a).
Proof. intros w. reflexivity. Qed.

Lemma sim_raise {A : Type} (phi : A -> A) e :
  simulates old phi (raise e) (raise e).
Proof. intros w. reflexivity. Qed.

Lemma sim_out_of_fuel {A : Type} (phi : A -> A) :
  simulates old phi out_of_fuel out_of_fuel.
Proof. intros w. reflexivity. Qed.

Lemma sim_bind {A B : Type} (phi : A -> A) (psi : B -> B)
      (c c' : M A) (k k' : A -> M B) :
  simulates old phi c c' ->
  (forall a, simulates old psi (k a) (k' (phi a))) ->
  simulates old psi (bind c k) (bind c' k').
Proof.
  intros Hc Hk w. unfold bind. rewrite Hc.
  destruct (c w) as [[a | e |] w1]; cbn [behind]; [apply Hk | reflexivity ..].
Qed.

Lemma the_capture_behind w cap :
  the_capture (after old w) (cap_behind old cap) = the_capture w cap.
Proof. unfold the_capture, after, cap_behind. cbn. apply nth_behind. Qed.

Lemma the_writer_behind w out :
  the_writer (after old w) (out_behind old out) = the_writer w out.
Proof. unfold the_writer, after, out_behind. cbn. apply nth_behind. Qed.

Lemma sim_VideoCapture env path :
  simulates old (cap_behind old) (VideoCapture env path)
            (VideoCapture env path).
Proof.
  intros w. unfold VideoCapture, behind, after, cap_behind.
  cbn [captures writers stdout].
  now rewrite length_app, app_assoc.
Qed.

Lemma sim_VideoWriter env path fourcc fps size isColor :
  simulates old (out_behind old)
            (VideoWriter env path fourcc fps size isColor)
            (VideoWriter env path fourcc fps size isColor).
Proof.
  intros w. unfold VideoWriter, with_writers, behind, after, out_behind.
  cbn [captures writers stdout].
  now rewrite length_app, app_assoc.
Qed.

Lemma sim_cap_isOpened cap :
  simulates old (fun b => b) (cap_isOpened cap)
            (cap_isOpened (cap_behind old cap)).
Proof. intros w. unfold cap_isOpened. now rewrite the_capture_behind. Qed.

Lemma sim_cap_get_fps cap :
  simulates old (fun x => x) (cap_get_fps cap)
            (cap_get_fps (cap_behind old cap)).
Proof. intros w. unfold cap_get_fps. now rewrite the_capture_behind. Qed.

Lemma sim_cap_get_width cap :
  simulates old (fun x => x) (cap_get_width cap)
            (cap_get_width (cap_behind old cap)).
Proof. intros w. unfold cap_get_width. now rewrite the_capture_behind. Qed.

Lemma sim_cap_get_height cap :
  simulates old (fun x => x) (cap_get_height cap)
            (cap_get_height (cap_behind old cap)).
Proof. intros w. unfold cap_get_height. now rewrite the_capture_behind. Qed.

Lemma sim_cap_get_frame_count cap :
  simulates old (fun x => x) (cap_get_frame_count cap)
            (cap_get_frame_count (cap_behind old cap)).
Proof.
  intros w. unfold cap_get_frame_count. now rewrite the_capture_behind.
Qed.

Lemma sim_cap_remaining cap :
  simulates old (fun x => x) (cap_remaining cap)
            (cap_remaining (cap_behind old cap)).
Proof. intros w. unfold cap_remaining. now rewrite the_capture_behind. Qed.

Lemma sim_cap_read cap :
  simulates old (fun x => x) (cap_read cap) (cap_read (cap_behind old cap)).
Proof.
  intros w. unfold cap_read. rewrite the_capture_behind.
  destruct (cap_opened (the_capture w cap)); [|reflexivity].
  destruct (cap_pending (the_capture w cap)); [reflexivity|].
  unfold behind, with_captures, after, cap_behind.
  cbn [captures writers stdout]. now rewrite update_behind.
Qed.

Lemma sim_cap_release cap :
  simulates old (fun x => x) (cap_release cap)
            (cap_release (cap_behind old cap)).
Proof.
  intros w. unfold cap_release, behind, with_captures, after, cap_behind.
  cbn [captures writers stdout]. now rewrite update_behind.
Qed.

Lemma sim_writer_isOpened out :
  simulates old (fun b => b) (writer_isOpened out)
            (writer_isOpened (out_behind old out)).
Proof. intros w. unfold writer_isOpened. now rewrite the_writer_behind. Qed.

Lemma sim_writer_write out frame :
  simulates old (fun x => x) (writer_write out frame)
            (writer_write (out_behind old out) frame).
Proof.
  intros w. unfold writer_write, behind, with_writers, after, out_behind.
  cbn [captures writers stdout]. now rewrite update_behind.
Qed.

Lemma sim_writer_release out :
  simulates old (fun x => x) (writer_release out)
            (writer_release (out_behind old out)).
Proof.
  intros w. unfold writer_release, behind, with_writers, after, out_behind.
  cbn [captures writers stdout]. now rewrite update_behind.
Qed.

Lemma sim_print m : simulates old (fun x => x) (print m) (print m).
Proof.
  intros w. unfold print, behind, after. cbn [captures writers stdout].
  now rewrite app_assoc.
Qed.

Lemma sim_truediv a b : simulates old (fun x => x) (truediv a b) (truediv a b).
Proof. intros w. unfold truediv. now destruct (b =? 0)%Z. Qed.

Lemma sim_modulo a b : simulates old (fun x => x) (modulo a b) (modulo a b).
Proof. intros w. unfold modulo. now destruct (b =? 0)%Z. Qed.

Lemma sim_contrast_loop cv mode total_frames :
  forall fuel cap out frame_idx,
    simulates old (fun x => x)
      (Exer1.frame_loop fuel cv cap out mode total_frames frame_idx)
      (Exer1.frame_loop fuel cv (cap_behind old cap) (out_behind old out)
         mode total_frames frame_idx).
Proof.
  induction fuel as [|fuel IH]; intros cap out frame_idx;
    cbn [Exer1.frame_loop]; [apply sim_out_of_fuel|].
  eapply sim_bind; [apply sim_cap_isOpened|]. intros opened.
  destruct opened; cbn [negb]; [|apply sim_ret].
  eapply sim_bind; [apply sim_cap_read|]. intros [frame|]; [|apply sim_ret].
  eapply sim_bind; [apply sim_truediv|]. intros progress.
  eapply sim_bind; [apply sim_writer_write|]. intros _.
  apply IH.
Qed.

(** [process_video], started in any world, behaves as in an empty one
    and touches nothing of what it found. *)
Lemma sim_process_video env cv input_path output_path mode :
  simulates old (fun x => x)
    (Exer1.process_video env cv input_path output_path mode)
    (Exer1.process_video env cv input_path output_path mode).
Proof.
  unfold Exer1.process_video.
  eapply sim_bind; [apply sim_VideoCapture|]. intros cap.
  eapply sim_bind; [apply sim_cap_isOpened|]. intros opened.
  destruct opened; cbn [negb]; [|apply sim_print].
  eapply sim_bind; [apply sim_cap_get_fps|]. intros fps.
  eapply sim_bind; [apply sim_cap_get_width|]. intros width.
  eapply sim_bind; [apply sim_cap_get_height|]. intros height.
  eapply sim_bind; [apply sim_cap_get_frame_count|]. intros total.
  eapply sim_bind; [apply sim_VideoWriter|]. intros out.
  eapply sim_bind; [apply sim_cap_remaining|]. intros pending.
  eapply sim_bind; [apply sim_contrast_loop|]. intros _.
  eapply sim_bind; [apply sim_cap_release|]. intros _.
  eapply sim_bind; [apply sim_writer_release|]. intros _.
  apply sim_print.
Qed.

Lemma sim_progress_of i total :
  simulates old (fun x => x) (Exer3.progress_of i total)
            (Exer3.progress_of i total).
Proof.
  unfold Exer3.progress_of.
  destruct (total >? 1)%Z; [apply sim_truediv | apply sim_ret].
Qed.

Lemma sim_rotation_loop cv final_angle width height total_frames :
  forall indices cap out_normal out_scaled,
    simulates old (fun x => x)
      (Exer3.frame_loop cv cap out_normal out_scaled final_angle
         width height total_frames indices)
      (Exer3.frame_loop cv (cap_behind old cap) (out_behind old out_normal)
         (out_behind old out_scaled) final_angle
         width height total_frames indices).
Proof.
  induction indices as [|i rest IH]; intros cap out_normal out_scaled;
    cbn [Exer3.frame_loop]; [apply sim_ret|].
  eapply sim_bind; [apply sim_cap_read|]. intros [frame|]; [|apply sim_ret].
  eapply sim_bind; [apply sim_progress_of|]. intros progress.
  eapply sim_bind; [apply sim_writer_write|]. intros _.
  eapply sim_bind; [apply sim_writer_write|]. intros _.
  eapply sim_bind; [apply sim_modulo|]. intros m.
  eapply sim_bind.
  { destruct (m =? 0)%Z; [|apply sim_ret].
    eapply sim_bind; [apply sim_truediv|]. intros fraction.
    apply sim_print. }
  intros _. apply IH.
Qed.

Lemma sim_rotate_all cv cap out_normal out_scaled pn ps final_angle
      width height total_frames :
  simulates old (fun x => x)
    (Exer3.rotate_all cv cap out_normal out_scaled pn ps final_angle
       width height total_frames)
    (Exer3.rotate_all cv (cap_behind old cap) (out_behind old out_normal)
       (out_behind old out_scaled) pn ps final_angle
       width height total_frames).
Proof.
  unfold Exer3.rotate_all.
  eapply sim_bind; [apply sim_rotation_loop|]. intros _.
  eapply sim_bind; [apply sim_cap_release|]. intros _.
  eapply sim_bind; [apply sim_writer_release|]. intros _.
  eapply sim_bind; [apply sim_writer_release|]. intros _.
  eapply sim_bind; [apply sim_print|]. intros _.
  eapply sim_bind; [apply sim_print|]. intros _.
  apply sim_ret.
Qed.

Lemma sim_apply_gradual_rotation env cv input_path pn ps final_angle :
  simulates old (fun x => x)
    (Exer3.apply_gradual_rotation env cv input_path pn ps final_angle)
    (Exer3.apply_gradual_rotation env cv input_path pn ps final_angle).
Proof.
  unfold Exer3.apply_gradual_rotation.
  eapply sim_bind; [apply sim_VideoCapture|]. intros cap.
  eapply sim_bind; [apply sim_cap_isOpened|]. intros opened.
  destruct opened; cbn [negb].
  2:{ eapply sim_bind; [apply sim_print|]. intros _. apply sim_ret. }
  eapply sim_bind; [apply sim_cap_get_fps|]. intros fps.
  eapply sim_bind; [apply sim_cap_get_width|]. intros width.
  eapply sim_bind; [apply sim_cap_get_height|]. intros height.
  eapply sim_bind; [apply sim_cap_get_frame_count|]. intros total.
  eapply sim_bind; [apply sim_print|]. intros _.
  eapply sim_bind; [apply sim_VideoWriter|]. intros out_normal.
  eapply sim_bind; [apply sim_VideoWriter|]. intros out_scaled.
  eapply sim_bind; [apply sim_writer_isOpened|]. intros normal_ok.
  eapply sim_bind; [apply sim_writer_isOpened|]. intros scaled_ok.
  destruct (negb (normal_ok && scaled_ok)); [|apply sim_rotate_all].
  eapply sim_bind; [apply sim_print|]. intros _.
  eapply sim_bind; [apply sim_writer_release|]. intros _.
  eapply sim_bind; [apply sim_writer_release|]. intros _.
  eapply sim_bind; [apply sim_VideoWriter|]. intros out_normal'.
  eapply sim_bind; [apply sim_VideoWriter|]. intros out_scaled'.
  eapply sim_bind; [apply sim_writer_isOpened|]. intros normal_ok'.
  eapply sim_bind; [apply sim_writer_isOpened|]. intros scaled_ok'.
  destruct (negb (normal_ok' && scaled_ok')); [|apply sim_rotate_all].
  eapply sim_bind; [apply sim_print|]. intros _. apply sim_ret.
Qed.

End Simulation.

End ComposeFacts.

(* ================================================================== *)
(** * Edge cases and composition of whole runs                         *)
(* ================================================================== *)

Module RunExtras.
Import Numpy Cv2 Py Contrast Outputs Compose.
Import RunFacts PipelineFacts ComposeFacts.
Local Open Scope py_scope.

(** X9.  [process_video] uses no object but the ones it creates: started in
    any world it returns what it returns in an empty one, and the
    captures, writers and printed lines it found are all still there,
    unchanged, in front of its own. *)
Theorem process_video_leaves_earlier_objects :
  forall (old : World) (env : Env) (cv : Imgproc)
         (input_path output_path contrast_mode : string),
    Exer1.process_video env cv input_path output_path contrast_mode old
    = (fst (Exer1.run env cv input_path output_path contrast_mode),
       after old
         (snd (Exer1.run env cv input_path output_path contrast_mode))).
Proof.
  intros old env cv i o m.
  pose proof (sim_process_video old env cv i o m empty_world) as E.
  rewrite after_empty in E. rewrite E. unfold Exer1.run.
  now destruct (Exer1.process_video env cv i o m empty_world)
    as [[[] | e |] w].
Qed.

(** X10.  [apply_gradual_rotation] uses no object but the ones it creates:
    started in any world it returns what it returns in an empty one, and
    the captures, writers and printed lines it found are all still
    there, unchanged, in front of its own. *)
Theorem apply_gradual_rotation_leaves_earlier_objects :
  forall (old : World) (env : Env) (cv : Imgproc)
         (input_path pn ps : string) (final_angle : R),
    Exer3.apply_gradual_rotation env cv input_path pn ps final_angle old
    = (fst (Exer3.run env cv input_path pn ps final_angle),
       after old (snd (Exer3.run env cv input_path pn ps final_angle))).
Proof.
  intros old env cv i pn ps fa.
  pose proof (sim_apply_gradual_rotation old env cv i pn ps fa empty_world)
    as E.
  rewrite after_empty in E. rewrite E. unfold Exer3.run.
  now destruct (Exer3.apply_gradual_rotation env cv i pn ps fa empty_world)
    as [[b | e |] w].
Qed.

(** X11.  A source that cannot be opened: either function prints its error
    line, creates no writer at all and returns ([None] for
    [process_video], [False] for [apply_gradual_rotation]); nothing is
    left open. *)
Theorem unreadable_source_creates_no_writer :
  forall (env : Env) (cv : Imgproc)
         (input_path output_path contrast_mode pn ps : string)
         (final_angle : R),
    env_source env input_path = None ->
    (exists w,
        Exer1.run env cv input_path output_path contrast_mode
        = (Returned tt, w)
        /\ writers w = []
        /\ stdout w = [Msg_could_not_open_video input_path]
        /\ all_released w)
    /\ (exists w,
           Exer3.run env cv input_path pn ps final_angle = (Returned false, w)
           /\ writers w = []
           /\ stdout w = [Msg_cannot_open input_path]
           /\ all_released w).
Proof.
  intros env cv i o m pn ps fa Hsrc. split.
  - eexists. split; [exact (contrast_no_source env cv i o m Hsrc)|].
    cbn [writers stdout]. repeat split; repeat constructor.
  - eexists. split; [exact (rotation_no_source env cv i pn ps fa Hsrc)|].
    cbn [writers stdout]. repeat split; repeat constructor.
Qed.

Lemma unreadable_source_creates_no_writer_witness :
  exists w,
    Exer3.run Scenarios.one_frame_env reference_imgproc "missing.mp4"
              "normal.mp4" "scaled.mp4" 360 = (Returned false, w)
    /\ writers w = [].
Proof.
  assert (Hsrc : env_source Scenarios.one_frame_env "missing.mp4" = None)
    by reflexivity.
  destruct (unreadable_source_creates_no_writer Scenarios.one_frame_env
              reference_imgproc "missing.mp4" "out.mp4" "linear"
              "normal.mp4" "scaled.mp4" 360 Hsrc)
    as [_ (w & E & Hw & _)].
  exists w. split; assumption.
Defined.

Lemma length_combine_range n {A : Type} (l : list A) :
  length (combine (range n) l) = Nat.min (Z.to_nat n) (length l).
Proof. now rewrite length_combine, length_range. Qed.

(** X12.  [apply_gradual_rotation] stops at the reported frame count or at
    the end of the stream, whichever comes first, and neither is an
    error: with a usable codec it returns [True], both outputs hold
    exactly [min(total_frames, frames delivered)] frames (none when the
    reported count is zero or negative), and the capture and every
    writer are released. *)
Theorem rotation_stops_at_count_or_end_of_stream :
  forall (env : Env) (cv : Imgproc) (input_path pn ps : string)
         (final_angle : R) (v : Video),
    env_source env input_path = Some v ->
    codec_available env pn ps = true ->
    exists w pre out_normal out_scaled,
      Exer3.run env cv input_path pn ps final_angle = (Returned true, w)
      /\ writers w = pre ++ [out_normal; out_scaled]
      /\ length (wr_written out_normal)
         = Nat.min (Z.to_nat (video_frame_count v)) (length (video_frames v))
      /\ length (wr_written out_scaled)
         = Nat.min (Z.to_nat (video_frame_count v)) (length (video_frames v))
      /\ Forall (fun o => wr_written o = []) pre
      /\ all_released w.
Proof.
  intros env cv i pn ps fa v Hsrc Hc.
  destruct (rotation_run_ok env cv i pn ps fa v Hsrc Hc)
    as (msgs & pre & o1 & o2 & E & Hpre & H1 & H2 & Hn & Hs).
  eexists. exists pre, o1, o2.
  split; [exact E|]. split; [reflexivity|].
  split.
  { rewrite Hn. unfold normal_outputs.
    now rewrite length_map, length_combine_range. }
  split.
  { rewrite Hs. unfold scaled_outputs.
    now rewrite length_map, length_combine_range. }
  split.
  { eapply Forall_impl; [|exact Hpre]. now intros o [_ Ho]. }
  unfold all_released. cbn [captures writers]. split.
  - repeat constructor.
  - apply Forall_app. split.
    + eapply Forall_impl; [|exact Hpre]. now intros o [Ho _].
    + repeat constructor; assumption.
Qed.

Lemma rotation_stops_at_count_or_end_of_stream_witness :
  exists w pre out_normal out_scaled,
    Exer3.run Scenarios.one_frame_env reference_imgproc Scenarios.input_path
              "normal.mp4" "scaled.mp4" 360 = (Returned true, w)
    /\ writers w = pre ++ [out_normal; out_scaled]
    /\ length (wr_written out_normal) = 1%nat
    /\ all_released w.
Proof.
  assert (Hsrc : env_source Scenarios.one_frame_env Scenarios.input_path
                 = Some (Scenarios.tiny_clip 1 [Scenarios.tiny_frame]))
    by reflexivity.
  assert (Hc : codec_available Scenarios.one_frame_env
                 "normal.mp4" "scaled.mp4" = true) by reflexivity.
  destruct (rotation_stops_at_count_or_end_of_stream Scenarios.one_frame_env
              reference_imgproc Scenarios.input_path "normal.mp4"
              "scaled.mp4" 360 _ Hsrc Hc)
    as (w & pre & o1 & o2 & E & Hw & Hn & _ & _ & Hr).
  exists w, pre, o1, o2.
  split; [exact E|]. split; [exact Hw|]. split; [exact Hn | exact Hr].
Defined.

(** X13.  The only way [process_video] can fail is the division of line 32:
    it raises exactly when the source opens, reports a frame count of 0
    and still delivers a frame; in every other case it returns. *)
Theorem process_video_raises_iff :
  forall (env : Env) (cv : Imgproc)
         (input_path output_path contrast_mode : string),
    (fst (Exer1.run env cv input_path output_path contrast_mode)
     = Raised ZeroDivisionError
     <-> exists v,
           env_source env input_path = Some v
           /\ video_frame_count v = 0%Z
           /\ video_frames v <> [])
    /\ (fst (Exer1.run env cv input_path output_path contrast_mode)
        = Raised ZeroDivisionError
        \/ fst (Exer1.run env cv input_path output_path contrast_mode)
           = Returned tt).
Proof.
  intros env cv i o m.
  destruct (env_source env i) as [v|] eqn:Hsrc.
  - destruct (video_frames v) as [|frame rest] eqn:Hframes.
    + rewrite (contrast_completes env cv i o m v Hsrc (or_introl Hframes)).
      cbn [fst]. split; [|now right]. split; [discriminate|].
      intros (v' & Hv & _ & Hne). injection Hv as <-.
      now rewrite Hframes in Hne.
    + destruct (Z.eq_dec (video_frame_count v) 0) as [Hz | Hnz].
      * rewrite (contrast_raises env cv i o m v Hsrc frame rest Hz Hframes).
        cbn [fst]. split; [|now left]. split; [|reflexivity].
        intros _. exists v. rewrite Hframes. repeat split; congruence.
      * rewrite (contrast_completes env cv i o m v Hsrc (or_intror Hnz)).
        cbn [fst]. split; [|now right]. split; [discriminate|].
        intros (v' & Hv & Hz & _). injection Hv as <-. contradiction.
  - rewrite (contrast_no_source env cv i o m Hsrc). cbn [fst].
    split; [|now right]. split; [discriminate|].
    intros (v' & Hv & _). discriminate.
Qed.

Lemma process_video_raises_iff_witness :
  fst (Exer1.run Scenarios.uncounted_env reference_imgproc
         Scenarios.input_path "out.mp4" "linear")
  = Raised ZeroDivisionError.
Proof.
  destruct (process_video_raises_iff Scenarios.uncounted_env
              reference_imgproc Scenarios.input_path "out.mp4" "linear")
    as [[_ H] _].
  apply H. exists (Scenarios.tiny_clip 0 [Scenarios.tiny_frame]).
  split; [reflexivity|]. split; [reflexivity | discriminate].
Defined.

(** X14.  [apply_gradual_rotation] never raises, whatever the source and the
    codecs: the loop body runs only for [total_frames >= 1], line 111
    divides only for [total_frames > 1], and the modulus of line 149 is
    at least 1. *)
Theorem apply_gradual_rotation_never_raises :
  forall (env : Env) (cv : Imgproc) (input_path pn ps : string)
         (final_angle : R),
    exists b w,
      Exer3.run env cv input_path pn ps final_angle = (Returned b, w)
      /\ (b = true <->
          exists v, env_source env input_path = Some v
                    /\ codec_available env pn ps = true).
Proof.
  intros env cv i pn ps fa.
  destruct (env_source env i) as [v|] eqn:Hsrc.
  - destruct (codec_available env pn ps) eqn:Hc.
    + destruct (rotation_run_ok env cv i pn ps fa v Hsrc Hc)
        as (msgs & pre & o1 & o2 & E & _).
      do 2 eexists. split; [exact E|].
      split; [intros _; now exists v | reflexivity].
    + pose proof Hc as Hc'. unfold codec_available in Hc'.
      apply orb_false_elim in Hc'. destruct Hc' as [Hp Hf].
      do 2 eexists. split.
      * exact (rotation_no_codec env cv i pn ps fa v Hsrc Hp Hf).
      * split; [discriminate|]. intros (v' & _ & Hc''). discriminate.
  - do 2 eexists. split.
    + exact (rotation_no_source env cv i pn ps fa Hsrc).
    + split; [discriminate|]. intros (v' & Hv & _). discriminate.
Qed.

Lemma apply_gradual_rotation_never_raises_witness :
  exists w,
    Exer3.run Scenarios.one_frame_env reference_imgproc Scenarios.input_path
              "normal.mp4" "scaled.mp4" 360 = (Returned true, w).
Proof.
  destruct (apply_gradual_rotation_never_raises Scenarios.one_frame_env
              reference_imgproc Scenarios.input_path "normal.mp4"
              "scaled.mp4" 360) as (b & w & E & [_ H]).
  assert (Hb : b = true).
  { apply H. exists (Scenarios.tiny_clip 1 [Scenarios.tiny_frame]).
    split; reflexivity. }
  exists w. subst b. exact E.
Defined.

Lemma contrast_completion_releases_witness :
  all_released
    (snd (Exer1.run Scenarios.one_frame_env reference_imgproc
            Scenarios.input_path "out.mp4" "sine")).
Proof.
  assert (Hsrc : env_source Scenarios.one_frame_env Scenarios.input_path
                 = Some (Scenarios.tiny_clip 1 [Scenarios.tiny_frame]))
    by reflexivity.
  apply (contrast_completion_releases Scenarios.one_frame_env
           reference_imgproc Scenarios.input_path "out.mp4" "sine" _ Hsrc).
  right. discriminate.
Defined.

(** X15.  When the primary codec fails for at least one of the two writers
    and the fallback opens both, the two [mp4v] writers are closed
    without a frame, every frame goes to the two [XVID] writers opened
    on the paths with [.mp4] replaced by [.avi], and the closing lines
    name these paths. *)
Theorem fallback_run_writes_to_avi_paths :
  forall (env : Env) (cv : Imgproc) (input_path pn ps : string)
         (final_angle : R) (v : Video),
    env_source env input_path = Some v ->
    env_sink env pn mp4v && env_sink env ps mp4v = false ->
    env_sink env (replace pn ".mp4" ".avi") XVID = true ->
    env_sink env (replace ps ".mp4" ".avi") XVID = true ->
    exists w,
      Exer3.run env cv input_path pn ps final_angle = (Returned true, w)
      /\ map wr_path (writers w)
         = [pn; ps; replace pn ".mp4" ".avi"; replace ps ".mp4" ".avi"]
      /\ map wr_fourcc (writers w) = [mp4v; mp4v; XVID; XVID]
      /\ map (fun o => length (wr_written o)) (writers w)
         = [0; 0;
            Nat.min (Z.to_nat (video_frame_count v)) (length (video_frames v));
            Nat.min (Z.to_nat (video_frame_count v)) (length (video_frames v))]%nat
      /\ all_released w
      /\ In (Msg_saved_normal (replace pn ".mp4" ".avi")) (stdout w)
      /\ In (Msg_saved_scaled (replace ps ".mp4" ".avi")) (stdout w).
Proof.
  intros env cv i pn ps fa v Hsrc Hp Hn Hs.
  destruct (rotation_fallback env cv i pn ps fa v Hsrc Hp Hn Hs) as [msgs E].
  eexists. split; [exact E|].
  cbn [writers stdout map wr_path wr_fourcc wr_written length].
  unfold normal_outputs, scaled_outputs.
  rewrite !length_map, !length_combine_range.
  repeat split.
  - repeat constructor.
  - repeat constructor.
  - apply in_or_app. right. apply in_or_app. right. now left.
  - apply in_or_app. right. apply in_or_app. right. right. now left.
Qed.

Lemma fallback_run_writes_to_avi_paths_witness :
  exists w,
    Exer3.run
      (Scenarios.env_of (Scenarios.tiny_clip 1 [Scenarios.tiny_frame])
         (fun _ fourcc => match fourcc with mp4v => false | XVID => true end))
      reference_imgproc Scenarios.input_path "normal.mp4" "scaled.mp4" 360
    = (Returned true, w)
    /\ map wr_path (writers w)
       = ["normal.mp4"; "scaled.mp4"; "normal.avi"; "scaled.avi"]%string.
Proof.
  set (env := Scenarios.env_of (Scenarios.tiny_clip 1 [Scenarios.tiny_frame])
                (fun _ fourcc =>
                   match fourcc with mp4v => false | XVID => true end)).
  assert (Hsrc : env_source env Scenarios.input_path
                 = Some (Scenarios.tiny_clip 1 [Scenarios.tiny_frame]))
    by reflexivity.
  assert (Hp : env_sink env "normal.mp4" mp4v
               && env_sink env "scaled.mp4" mp4v = false) by reflexivity.
  assert (Hn : env_sink env (replace "normal.mp4" ".mp4" ".avi") XVID = true)
    by reflexivity.
  assert (Hs : env_sink env (replace "scaled.mp4" ".mp4" ".avi") XVID = true)
    by reflexivity.
  destruct (fallback_run_writes_to_avi_paths env reference_imgproc
              Scenarios.input_path "normal.mp4" "scaled.mp4" 360 _
              Hsrc Hp Hn Hs) as (w & E & Hpaths & _).
  exists w. split; [exact E | exact Hpaths].
Defined.

End RunExtras.

(* ================================================================== *)
(** * The script of exercise 1                                         *)
(* ================================================================== *)

Module ScriptFacts.
Import Numpy Cv2 Py Contrast Outputs Compose Exer1Script.
Import RunFacts ComposeFacts.
Local Open Scope py_scope.

(** The second call starts behind whatever the first one left. *)
Lemma script_steps env cv :
  Exer1Script.run env cv =
  match Exer1.run env cv input_path linear_path "linear" with
  | (Returned _, w1) =>
      (fst (Exer1.run env cv input_path pulsate_path "sine"),
       after w1 (snd (Exer1.run env cv input_path pulsate_path "sine")))
  | (Raised e, w1) => (Raised e, w1)
  | (OutOfFuel, w1) => (OutOfFuel, w1)
  end.
Proof.
  unfold Exer1Script.run, script, bind.
  change (Exer1.process_video env cv input_path linear_path "linear"
            empty_world)
    with (Exer1.run env cv input_path linear_path "linear").
  destruct (Exer1.run env cv input_path linear_path "linear")
    as [[[] | e |] w1]; [|reflexivity ..].
  pose proof (sim_process_video w1 env cv input_path pulsate_path "sine"
                empty_world) as E.
  rewrite after_empty in E. rewrite E. unfold Exer1.run.
  now destruct (Exer1.process_video env cv input_path pulsate_path "sine"
                  empty_world) as [[[] | e |] w].
Qed.

(** X17.  On a readable source (with a non-zero reported count, or no frame
    at all) the script runs both modes to the end: each run opens its
    own capture and reads the source from its first frame, the two
    outputs hold the linear and the sine transform of the same frames,
    as many as the source delivered, and all four objects are released. *)
Theorem script_runs_both_modes :
  forall (env : Env) (cv : Imgproc) (v : Video),
    env_source env input_path = Some v ->
    video_frames v = [] \/ video_frame_count v <> 0%Z ->
    env_sink env linear_path mp4v = true ->
    env_sink env pulsate_path mp4v = true ->
    exists w out_linear out_pulsate,
      Exer1Script.run env cv = (Returned tt, w)
      /\ captures w = [capture_of v false []; capture_of v false []]
      /\ writers w = [out_linear; out_pulsate]
      /\ wr_path out_linear = linear_path
      /\ wr_path out_pulsate = pulsate_path
      /\ wr_written out_linear
         = contrast_outputs cv "linear" (video_frame_count v) 0
             (video_frames v)
      /\ wr_written out_pulsate
         = contrast_outputs cv "sine" (video_frame_count v) 0
             (video_frames v)
      /\ length (wr_written out_linear) = length (video_frames v)
      /\ length (wr_written out_pulsate) = length (video_frames v)
      /\ all_released w
      /\ stdout w = [Msg_finished "linear" linear_path;
                     Msg_finished "sine" pulsate_path].
Proof.
  intros env cv v Hsrc Hnz Hl Hp.
  rewrite script_steps.
  rewrite (contrast_completes env cv input_path linear_path "linear" v
             Hsrc Hnz).
  rewrite (contrast_completes env cv input_path pulsate_path "sine" v
             Hsrc Hnz).
  rewrite Hl, Hp. cbn [fst snd].
  do 3 eexists. split; [reflexivity|].
  unfold after. cbn [captures writers stdout app wr_path wr_written].
  repeat split.
  - apply PipelineFacts.contrast_outputs_length.
  - apply PipelineFacts.contrast_outputs_length.
  - repeat constructor.
  - repeat constructor.
Qed.

Lemma script_runs_both_modes_witness :
  exists w out_linear out_pulsate,
    Exer1Script.run Scenarios.one_frame_env reference_imgproc
    = (Returned tt, w)
    /\ writers w = [out_linear; out_pulsate]
    /\ length (wr_written out_linear) = 1%nat
    /\ length (wr_written out_pulsate) = 1%nat.
Proof.
  assert (Hsrc : env_source Scenarios.one_frame_env input_path
                 = Some (Scenarios.tiny_clip 1 [Scenarios.tiny_frame]))
    by reflexivity.
  assert (Hnz : video_frames (Scenarios.tiny_clip 1 [Scenarios.tiny_frame])
                = []
                \/ video_frame_count
                     (Scenarios.tiny_clip 1 [Scenarios.tiny_frame]) <> 0%Z)
    by (right; discriminate).
  assert (Hl : env_sink Scenarios.one_frame_env linear_path mp4v = true)
    by reflexivity.
  assert (Hp : env_sink Scenarios.one_frame_env pulsate_path mp4v = true)
    by reflexivity.
  destruct (script_runs_both_modes Scenarios.one_frame_env reference_imgproc
              _ Hsrc Hnz Hl Hp)
    as (w & ol & op & E & _ & Hw & _ & _ & _ & _ & Ll & Lp & _).
  exists w, ol, op.
  split; [exact E|]. split; [exact Hw|]. split; [exact Ll | exact Lp].
Defined.

(** X18.  When the first call raises (a source reporting zero frames and
    delivering one), the script stops there: the sine run never starts,
    its output file is never created, nothing is printed, and the
    capture and the writer of the first run are left open. *)
Theorem script_stops_at_first_error :
  forall (env : Env) (cv : Imgproc) (v : Video) frame rest,
    env_source env input_path = Some v ->
    video_frame_count v = 0%Z ->
    video_frames v = frame :: rest ->
    exists w,
      Exer1Script.run env cv = (Raised ZeroDivisionError, w)
      /\ map wr_path (writers w) = [linear_path]
      /\ map cap_opened (captures w) = [true]
      /\ Forall (fun o => wr_written o = []) (writers w)
      /\ stdout w = [].
Proof.
  intros env cv v frame rest Hsrc Hz Hframes.
  rewrite script_steps.
  rewrite (contrast_raises env cv input_path linear_path "linear" v
             Hsrc frame rest Hz Hframes).
  eexists. split; [reflexivity|].
  cbn [writers captures stdout map wr_path cap_opened capture_of].
  repeat split. repeat constructor.
Qed.

Lemma script_stops_at_first_error_witness :
  exists w,
    Exer1Script.run Scenarios.uncounted_env reference_imgproc
    = (Raised ZeroDivisionError, w)
    /\ map wr_path (writers w) = [linear_path].
Proof.
  assert (Hsrc : env_source Scenarios.uncounted_env input_path
                 = Some (Scenarios.tiny_clip 0 [Scenarios.tiny_frame]))
    by reflexivity.
  destruct (script_stops_at_first_error Scenarios.uncounted_env
              reference_imgproc _ Scenarios.tiny_frame [] Hsrc
              eq_refl eq_refl) as (w & E & Hw & _).
  exists w. split; [exact E | exact Hw].
Defined.

End ScriptFacts.

(* ================================================================== *)
(** * [create_test_video]                                              *)
(* ================================================================== *)

Module TestVideoFacts.
Import Numpy Cv2 Py Compose Exer3Script.
Import NumpyFacts RunFacts.
Local Open Scope script_scope.

Lemma then_done {A B : Type} (c : Script A) (k : A -> Script B) s a s' :
  c s = (Done a, s') -> then_ c k s = k a s'.
Proof. intros E. unfold then_. now rewrite E. Qed.

(** A lifted computation that prints nothing leaves the console alone. *)
Lemma lift_quiet {A : Type} (c : M A) w con a w' :
  c w = (Returned a, w') -> stdout w' = stdout w ->
  lift c {| world := w; console := con |}
  = (Done a, {| world := w'; console := con |}).
Proof.
  intros E Hout. unfold lift. cbn [world console]. rewrite E, Hout.
  now rewrite skipn_all, app_nil_r.
Qed.

Lemma lift_write cs pre p c f z k b w out con frame :
  lift (writer_write (length pre) frame)
    {| world := {| captures := cs;
                   writers := pre ++ [Build_Writer p c f z k b w];
                   stdout := out |};
       console := con |}
  = (Done tt,
     {| world := {| captures := cs;
                    writers := pre ++ [Build_Writer p c f z k b
                                         (if b then w ++ [frame] else w)];
                    stdout := out |};
        console := con |}).
Proof.
  apply lift_quiet; [|reflexivity].
  unfold writer_write, with_writers. cbn [captures writers stdout].
  now rewrite update_here.
Qed.

Lemma lift_release cs pre p c f z k b w out con :
  lift (writer_release (length pre))
    {| world := {| captures := cs;
                   writers := pre ++ [Build_Writer p c f z k b w];
                   stdout := out |};
       console := con |}
  = (Done tt,
     {| world := {| captures := cs;
                    writers := pre ++ [Build_Writer p c f z k false w];
                    stdout := out |};
        console := con |}).
Proof.
  apply lift_quiet; [|reflexivity].
  unfold writer_release, with_writers. cbn [captures writers stdout].
  now rewrite update_here.
Qed.

Lemma lift_isOpened cs pre o out con :
  lift (writer_isOpened (length pre))
    {| world := {| captures := cs; writers := pre ++ [o]; stdout := out |};
       console := con |}
  = (Done (wr_opened o),
     {| world := {| captures := cs; writers := pre ++ [o]; stdout := out |};
        console := con |}).
Proof.
  apply lift_quiet; [|reflexivity].
  unfold writer_isOpened, the_writer. cbn [writers]. now rewrite nth_here.
Qed.

Lemma lift_VideoWriter env path fourcc fps size isColor cs ws out con :
  lift (VideoWriter env path fourcc fps size isColor)
    {| world := {| captures := cs; writers := ws; stdout := out |};
       console := con |}
  = (Done (length ws),
     {| world := {| captures := cs;
                    writers := ws ++ [Build_Writer path fourcc fps size isColor
                                        (env_sink env path fourcc) []];
                    stdout := out |};
        console := con |}).
Proof. now apply lift_quiet. Qed.

Lemma zeros_nonneg rows cols s :
  (0 <= rows)%Z -> (0 <= cols)%Z ->
  zeros rows cols s = (Done (blank rows cols), s).
Proof.
  intros Hr Hc. unfold zeros.
  destruct (rows <? 0)%Z eqn:Er; [lia|].
  destruct (cols <? 0)%Z eqn:Ec; [lia|]. reflexivity.
Qed.

(** The drawing loop on a frame size that is not negative. *)
Lemma draw_loop_run dr size total_frames :
  (0 <= fst size)%Z -> (0 <= snd size)%Z ->
  forall indices cs pre p c f z k b w out con,
    draw_loop dr (length pre) size total_frames indices
      {| world := {| captures := cs;
                     writers := pre ++ [Build_Writer p c f z k b w];
                     stdout := out |};
         console := con |}
    = (Done tt,
       {| world :=
            {| captures := cs;
               writers :=
                 pre ++ [Build_Writer p c f z k b
                           (if b
                            then w ++ map (fun i =>
                                   Color (paint dr size i total_frames
                                            (blank (snd size) (fst size))))
                                   indices
                            else w)];
               stdout := out |};
          console := con |}).
Proof.
  intros Hw Hh.
  induction indices as [|i rest IH]; intros cs pre p c f z k b w out con.
  - cbn [draw_loop map]. unfold pure. rewrite app_nil_r. now destruct b.
  - cbn [draw_loop].
    erewrite then_done by now apply zeros_nonneg.
    erewrite then_done by apply lift_write.
    rewrite IH. destruct b; [|reflexivity].
    cbn [map]. now rewrite <- app_assoc.
Qed.

Section CreateTestVideo.
Variables (env : Env) (dr : Drawing).
Variables (output_path : string) (duration fps : Z) (size : Z * Z).
Hypothesis width_nonneg : (0 <= fst size)%Z.
Hypothesis height_nonneg : (0 <= snd size)%Z.
Variables (cs : list Capture) (ws : list Writer) (out : list Msg).
Variable con : list Line.

Let start : Session :=
  {| world := {| captures := cs; writers := ws; stdout := out |};
     console := con |}.
Let avi_path := replace output_path ".mp4" ".avi".
Let frames := test_frames dr size (duration * fps).

(** The primary codec opens the writer. *)
Lemma create_test_video_primary :
  env_sink env output_path mp4v = true ->
  create_test_video env dr output_path duration fps size start
  = (Done (Some output_path),
     {| world :=
          {| captures := cs;
             writers := ws ++ [Build_Writer output_path mp4v (IZR fps) size
                                 true false frames];
             stdout := out |};
        console := con ++ [Line_creating_at output_path;
                           Line_created_at output_path] |}).
Proof.
  intros Hsink. unfold create_test_video, start.
  unfold then_ at 1, say. cbn [world console].
  unfold try_except.
  erewrite then_done by apply lift_VideoWriter.
  erewrite then_done by apply lift_isOpened.
  cbn [wr_opened]. rewrite Hsink. cbn [negb].
  unfold then_ at 1, pure at 1. cbn [fst snd].
  erewrite then_done
    by (apply (draw_loop_run dr size (duration * fps)
                 width_nonneg height_nonneg)).
  erewrite then_done by apply lift_release.
  unfold then_, say, pure. cbn [world console app].
  now rewrite <- app_assoc.
Qed.

(** The primary codec fails: the second writer is used, open or not. *)
Lemma create_test_video_fallback :
  env_sink env output_path mp4v = false ->
  create_test_video env dr output_path duration fps size start
  = (Done (Some avi_path),
     {| world :=
          {| captures := cs;
             writers :=
               ws ++ [Build_Writer output_path mp4v (IZR fps) size
                        true false [];
                      Build_Writer avi_path XVID (IZR fps) size true false
                        (if env_sink env avi_path XVID then frames else [])];
             stdout := out |};
        console := con ++ [Line_creating_at output_path;
                           Line_created_at avi_path] |}).
Proof.
  intros Hsink. unfold create_test_video, start.
  unfold then_ at 1, say. cbn [world console].
  unfold try_except.
  erewrite then_done by apply lift_VideoWriter.
  erewrite then_done by apply lift_isOpened.
  cbn [wr_opened]. rewrite Hsink. cbn [negb].
  fold avi_path.
  erewrite then_done.
  2:{ erewrite then_done by apply lift_release.
      erewrite then_done by apply lift_VideoWriter.
      reflexivity. }
  cbn [fst snd].
  rewrite length_app. cbn [length].
  replace (length ws + 1)%nat
    with (length (ws ++ [Build_Writer output_path mp4v (IZR fps) size
                           true false []]))
    by (rewrite length_app; reflexivity).
  rewrite <- (app_assoc ws [_] [_]).
  rewrite (app_assoc ws [_] [_]).
  erewrite then_done
    by (apply (draw_loop_run dr size (duration * fps)
                 width_nonneg height_nonneg)).
  erewrite then_done by apply lift_release.
  unfold then_, say, pure. cbn [world console app].
  rewrite <- !app_assoc. cbn [app].
  now destruct (env_sink env avi_path XVID).
Qed.

End CreateTestVideo.

(** X19.  [create_test_video] falls back at most once and does not look at
    the second writer: for a frame size that is not negative it always
    returns a path (the given one, or the one with [.mp4] replaced by
    [.avi] after a fallback) and prints that the video was created.  It
    releases every writer it created and touches nothing else; the
    writer it ends with holds [duration * fps] frames if it opened and
    none otherwise. *)
Theorem create_test_video_always_reports_success :
  forall (env : Env) (dr : Drawing) (output_path : string)
         (duration fps : Z) (size : Z * Z) (s : Session),
    (0 <= fst size)%Z -> (0 <= snd size)%Z ->
    let avi_path := replace output_path ".mp4" ".avi" in
    let frames := test_frames dr size (duration * fps) in
    let returned :=
      if env_sink env output_path mp4v then output_path else avi_path in
    exists s',
      create_test_video env dr output_path duration fps size s
      = (Done (Some returned), s')
      /\ captures (world s') = captures (world s)
      /\ stdout (world s') = stdout (world s)
      /\ writers (world s')
         = writers (world s)
           ++ (if env_sink env output_path mp4v
               then [Build_Writer output_path mp4v (IZR fps) size true
                       false frames]
               else [Build_Writer output_path mp4v (IZR fps) size true
                       false [];
                     Build_Writer avi_path XVID (IZR fps) size true false
                       (if env_sink env avi_path XVID then frames else [])])
      /\ console s'
         = console s ++ [Line_creating_at output_path;
                         Line_created_at returned]
      /\ length frames = Z.to_nat (duration * fps).
Proof.
  intros env dr path duration fps size [[cs ws out] con] Hw Hh
    avi_path frames returned.
  assert (Hlen : length frames = Z.to_nat (duration * fps)).
  { unfold frames, test_frames. now rewrite length_map, length_range. }
  unfold returned.
  destruct (env_sink env path mp4v) eqn:Hsink.
  - eexists. split.
    + exact (create_test_video_primary env dr path duration fps size
               Hw Hh cs ws out con Hsink).
    + cbn [world console captures writers stdout]. now repeat split.
  - eexists. split.
    + exact (create_test_video_fallback env dr path duration fps size
               Hw Hh cs ws out con Hsink).
    + cbn [world console captures writers stdout]. now repeat split.
Qed.

Lemma create_test_video_always_reports_success_witness :
  exists s',
    create_test_video Scenarios.unwritable_env no_drawing
      "my_test_video.mp4" 5 30 (640, 480)%Z empty_session
    = (Done (Some "my_test_video.avi"%string), s')
    /\ map (fun o => length (wr_written o)) (writers (world s'))
       = [0; 0]%nat.
Proof.
  destruct (create_test_video_always_reports_success
              Scenarios.unwritable_env no_drawing "my_test_video.mp4"
              5 30 (640, 480)%Z empty_session)
    as (s' & E & _ & _ & Hw & _); [cbn; lia | cbn; lia |].
  exists s'. split; [exact E|]. rewrite Hw. reflexivity.
Defined.

Lemma trunc_scaled_wave extent wave :
  (0 < extent)%Z -> -1 <= wave <= 1 ->
  (0 <= trunc (IZR extent * (0.5 + 0.3 * wave)) < extent)%Z.
Proof.
  intros He Hwave. apply IZR_lt in He.
  set (x := IZR extent * (0.5 + 0.3 * wave)).
  assert (Hlo : 0 <= x) by (unfold x; nra).
  assert (Hhi : x < IZR extent) by (unfold x; nra).
  rewrite trunc_nonneg by exact Hlo.
  pose proof (Zfloor_bound x) as [Hb1 Hb2]. split.
  - apply Zfloor_lub. exact Hlo.
  - apply lt_IZR. lra.
Qed.

(** X20.  On a frame of positive width and height, the centre of the circle
    and the centre of the rectangle are pixels of the frame, for every
    frame index and every frame count. *)
Theorem shapes_are_centred_inside_the_frame :
  forall (size : Z * Z) (i total_frames : Z),
    (0 < fst size)%Z -> (0 < snd size)%Z ->
    (0 <= fst (circle_center size i total_frames) < fst size)%Z
    /\ (0 <= snd (circle_center size i total_frames) < snd size)%Z
    /\ (0 <= fst (rect_center size i total_frames) < fst size)%Z
    /\ (0 <= snd (rect_center size i total_frames) < snd size)%Z.
Proof.
  intros size i total Hw Hh.
  unfold circle_center, rect_center. cbn [fst snd].
  pose proof (SIN_bound (IZR i * 2 * PI / IZR total)).
  pose proof (COS_bound (IZR i * 2 * PI / IZR total)).
  repeat split; now apply trunc_scaled_wave.
Qed.

Lemma shapes_are_centred_inside_the_frame_witness :
  (0 <= fst (circle_center (640, 480)%Z 37 150) < 640)%Z
  /\ (0 <= snd (rect_center (640, 480)%Z 37 150) < 480)%Z.
Proof.
  destruct (shapes_are_centred_inside_the_frame (640, 480)%Z 37 150)
    as (Hx & _ & _ & Hy); [cbn; lia | cbn; lia |].
  split; [exact Hx | exact Hy].
Defined.





End TestVideoFacts.

(* ================================================================== *)
(** * The main block of exercise 3                                     *)
(* ================================================================== *)

Module MainFacts.
Import Numpy Cv2 Py Outputs Compose Exer3Script.
Import RunFacts PipelineFacts ComposeFacts TestVideoFacts.
Local Open Scope script_scope.

(** A whole run of [apply_gradual_rotation] inside a session. *)
Lemma lift_rotation env cv path pn ps final_angle s b w :
  Exer3.run env cv path pn ps final_angle = (Returned b, w) ->
  lift (Exer3.apply_gradual_rotation env cv path pn ps final_angle) s
  = (Done b,
     {| world := after (world s) w;
        console := console s ++ map Said (stdout w) |}).
Proof.
  intros E. unfold lift.
  pose proof (sim_apply_gradual_rotation (world s) env cv path pn ps
                final_angle empty_world) as H.
  rewrite after_empty in H. rewrite H.
  unfold Exer3.run in E. rewrite E. cbn [behind].
  unfold after at 2. cbn [stdout].
  now rewrite skipn_app, skipn_all, Nat.sub_diag.
Qed.

Lemma main_when_first_run_succeeds env dr cv reread w :
  Exer3.run env cv input_path output_path_normal output_path_scaled 360
  = (Returned true, w) ->
  main env dr cv reread empty_session
  = (Done tt, {| world := w; console := map Said (stdout w) |}).
Proof.
  intros E. unfold main, try_except.
  erewrite then_done by (apply lift_rotation; exact E).
  cbn [negb]. unfold pure, empty_session. cbn [world console app].
  unfold after, empty_world. cbn [captures writers stdout app].
  now destruct w.
Qed.

Lemma main_when_first_run_fails env dr cv reread w :
  Exer3.run env cv input_path output_path_normal output_path_scaled 360
  = (Returned false, w) ->
  exists s1 path w2 b,
    create_test_video env dr "my_test_video.mp4" 5 30 (640, 480)%Z
      {| world := w;
         console := map Said (stdout w) ++ [Line_creating_test_video] |}
    = (Done (Some path), s1)
    /\ path = (if env_sink env "my_test_video.mp4" mp4v
               then "my_test_video.mp4"
               else replace "my_test_video.mp4" ".mp4" ".avi")%string
    /\ Exer3.run (env_after env reread s1) cv path
         output_path_normal output_path_scaled 360 = (Returned b, w2)
    /\ main env dr cv reread empty_session
       = (Done tt,
          {| world := after (world s1) w2;
             console := console s1 ++ map Said (stdout w2) |}).
Proof.
  intros E.
  assert (H1 : exists s1,
             create_test_video env dr "my_test_video.mp4" 5 30 (640, 480)%Z
               {| world := w;
                  console := map Said (stdout w)
                             ++ [Line_creating_test_video] |}
             = (Done (Some (if env_sink env "my_test_video.mp4" mp4v
                            then "my_test_video.mp4"
                            else replace "my_test_video.mp4" ".mp4" ".avi")%string),
                s1)).
  { destruct w as [cs ws out].
    destruct (env_sink env "my_test_video.mp4" mp4v) eqn:Hsink; eexists.
    - apply create_test_video_primary; [cbn; lia | cbn; lia | exact Hsink].
    - apply create_test_video_fallback; [cbn; lia | cbn; lia | exact Hsink]. }
  destruct H1 as [s1 E1].
  set (path := (if env_sink env "my_test_video.mp4" mp4v
                then "my_test_video.mp4"
                else replace "my_test_video.mp4" ".mp4" ".avi")%string)
    in *.
  destruct (rotation_never_raises (env_after env reread s1) cv path
              output_path_normal output_path_scaled 360) as (b & w2 & E2).
  exists s1, path, w2, b.
  split; [exact E1|]. split; [reflexivity|]. split; [exact E2|].
  unfold main, try_except.
  erewrite then_done by (apply lift_rotation; exact E).
  cbn [negb].
  unfold then_ at 1, say, empty_session. cbn [world console app].
  replace (after empty_world w) with w
    by (unfold after, empty_world; now destruct w).
  erewrite then_done by exact E1.
  assert (Hne : String.eqb path "" = false).
  { unfold path. now destruct (env_sink env "my_test_video.mp4" mp4v). }
  cbv beta iota. rewrite Hne.
  erewrite then_done by (cbv beta; apply lift_rotation; exact E2).
  reflexivity.
Qed.

(** X22.  When the first call succeeds the main block does nothing more: no
    test video is created, no second run takes place, and the session
    ends with exactly the objects and the lines of that one run. *)
Theorem main_stops_after_a_successful_run :
  forall (env : Env) (dr : Drawing) (cv : Imgproc)
         (reread : Session -> string -> option Video) (v : Video),
    env_source env input_path = Some v ->
    codec_available env output_path_normal output_path_scaled = true ->
    exists w,
      Exer3.run env cv input_path output_path_normal output_path_scaled 360
      = (Returned true, w)
      /\ main env dr cv reread empty_session
         = (Done tt, {| world := w; console := map Said (stdout w) |})
      /\ all_released w.
Proof.
  intros env dr cv reread v Hsrc Hc.
  destruct (rotation_run_ok env cv input_path output_path_normal
              output_path_scaled 360 v Hsrc Hc)
    as (msgs & pre & o1 & o2 & E & Hpre & H1 & H2 & _).
  eexists. split; [exact E|]. split.
  - now apply main_when_first_run_succeeds.
  - unfold all_released. cbn [captures writers]. split.
    + repeat constructor.
    + apply Forall_app. split.
      * eapply Forall_impl; [|exact Hpre]. now intros o [Ho _].
      * repeat constructor; assumption.
Qed.

Lemma main_stops_after_a_successful_run_witness :
  exists w,
    main Scenarios.one_frame_env no_drawing reference_imgproc
         (fun _ _ => None) empty_session
    = (Done tt, {| world := w; console := map Said (stdout w) |})
    /\ all_released w.
Proof.
  assert (Hsrc : env_source Scenarios.one_frame_env input_path
                 = Some (Scenarios.tiny_clip 1 [Scenarios.tiny_frame]))
    by reflexivity.
  assert (Hc : codec_available Scenarios.one_frame_env output_path_normal
                 output_path_scaled = true) by reflexivity.
  destruct (main_stops_after_a_successful_run Scenarios.one_frame_env
              no_drawing reference_imgproc (fun _ _ => None) _ Hsrc Hc)
    as (w & _ & E & Hr).
  exists w. split; [exact E | exact Hr].
Defined.

(** X23.  The main block creates the test video whenever the first call
    returns [False], not only when the input is missing: with a readable
    input and no codec for the two outputs, a writer is opened on
    [my_test_video.mp4], the input path itself, and the 150 synthetic
    frames are written to it, while the capture the first call opened on
    that path is still open. *)
Theorem main_overwrites_a_readable_input :
  forall (env : Env) (dr : Drawing) (cv : Imgproc)
         (reread : Session -> string -> option Video) (v : Video),
    env_source env input_path = Some v ->
    codec_available env output_path_normal output_path_scaled = false ->
    env_sink env input_path mp4v = true ->
    exists s' test_writer,
      main env dr cv reread empty_session = (Done tt, s')
      /\ In test_writer (writers (world s'))
      /\ wr_path test_writer = input_path
      /\ wr_written test_writer = test_frames dr (640, 480)%Z 150
      /\ length (wr_written test_writer) = 150%nat
      /\ nth_error (captures (world s')) 0
         = Some (capture_of v true (video_frames v))
      /\ In Line_creating_test_video (console s').
Proof.
  intros env dr cv reread v Hsrc Hc Hsink.
  pose proof Hc as Hc'. unfold codec_available in Hc'.
  apply orb_false_elim in Hc'. destruct Hc' as [Hp Hf].
  pose proof (rotation_no_codec env cv input_path output_path_normal
                output_path_scaled 360 v Hsrc Hp Hf) as E.
  destruct (main_when_first_run_fails env dr cv reread _ E)
    as (s1 & path & w2 & b & E1 & _ & _ & Em).
  rewrite (create_test_video_primary env dr "my_test_video.mp4" 5 30
             (640, 480)%Z) in E1 by (cbn; lia || exact Hsink).
  injection E1 as _ <-.
  eexists. eexists. split; [exact Em|].
  cbn [world console]. unfold after. cbn [captures writers stdout].
  split.
  { apply in_or_app. left. cbn [app]. do 4 right. now left. }
  cbn [wr_path wr_written app nth_error].
  split; [reflexivity|]. split; [reflexivity|].
  split.
  { unfold test_frames. now rewrite length_map, length_range. }
  split; [reflexivity|].
  do 3 right. now left.
Qed.

Lemma main_overwrites_a_readable_input_witness :
  exists s' test_writer,
    main (Scenarios.env_of (Scenarios.tiny_clip 1 [Scenarios.tiny_frame])
            (fun path _ => String.eqb path input_path))
         no_drawing reference_imgproc (fun _ _ => None) empty_session
    = (Done tt, s')
    /\ In test_writer (writers (world s'))
    /\ wr_path test_writer = input_path
    /\ length (wr_written test_writer) = 150%nat.
Proof.
  set (env := Scenarios.env_of (Scenarios.tiny_clip 1 [Scenarios.tiny_frame])
                (fun path _ => String.eqb path input_path)).
  assert (Hsrc : env_source env input_path
                 = Some (Scenarios.tiny_clip 1 [Scenarios.tiny_frame]))
    by reflexivity.
  assert (Hc : codec_available env output_path_normal output_path_scaled
               = false) by reflexivity.
  assert (Hsink : env_sink env input_path mp4v = true) by reflexivity.
  destruct (main_overwrites_a_readable_input env no_drawing
              reference_imgproc (fun _ _ => None) _ Hsrc Hc Hsink)
    as (s' & tw & E & Hin & Hp & _ & Hl & _).
  exists s', tw. repeat split; assumption.
Defined.

(** X24.  The case the main block is written for: the input is missing, the
    test video is created on its path, and the second call rotates what
    a capture then reads there.  The session ends with the writer of the
    test video followed by the writers of the second call, whose last
    two hold the rotated frames, and with every object released. *)
Theorem main_synthesises_a_missing_input :
  forall (env : Env) (dr : Drawing) (cv : Imgproc)
         (reread : Session -> string -> option Video) (v' : Video),
    env_source env input_path = None ->
    env_sink env input_path mp4v = true ->
    (forall s, reread s input_path = Some v') ->
    codec_available env output_path_normal output_path_scaled = true ->
    exists s' test_writer pre out_normal out_scaled,
      main env dr cv reread empty_session = (Done tt, s')
      /\ writers (world s')
         = test_writer :: pre ++ [out_normal; out_scaled]
      /\ wr_path test_writer = input_path
      /\ wr_written test_writer = test_frames dr (640, 480)%Z 150
      /\ wr_written out_normal
         = normal_outputs cv 360 (video_width v') (video_height v')
             (video_frame_count v')
             (combine (range (video_frame_count v')) (video_frames v'))
      /\ wr_written out_scaled
         = scaled_outputs cv 360 (video_width v') (video_height v')
             (video_frame_count v')
             (combine (range (video_frame_count v')) (video_frames v'))
      /\ all_released (world s').
Proof.
  intros env dr cv reread v' Hsrc Hsink Hre Hc.
  pose proof (rotation_no_source env cv input_path output_path_normal
                output_path_scaled 360 Hsrc) as E.
  destruct (main_when_first_run_fails env dr cv reread _ E)
    as (s1 & path & w2 & b & E1 & Hpath & E2 & Em).
  change "my_test_video.mp4"%string with input_path in Hpath.
  rewrite Hsink in Hpath. subst path.
  rewrite (create_test_video_primary env dr "my_test_video.mp4" 5 30
             (640, 480)%Z) in E1 by (cbn; lia || exact Hsink).
  injection E1 as Es1.
  assert (Hc2 : codec_available (env_after env reread s1)
                  output_path_normal output_path_scaled = true)
    by exact Hc.
  destruct (rotation_run_ok (env_after env reread s1) cv input_path
              output_path_normal output_path_scaled 360 v' (Hre s1) Hc2)
    as (msgs & pre & o1 & o2 & E2' & Hpre & H1 & H2 & Hn & Hs).
  rewrite E2' in E2. injection E2 as _ <-.
  rewrite <- Es1 in Em.
  eexists. eexists. exists pre, o1, o2.
  split; [exact Em|].
  cbn [world console]. unfold after. cbn [captures writers stdout app].
  split; [reflexivity|]. cbn [wr_path wr_written].
  split; [reflexivity|]. split; [reflexivity|].
  split; [exact Hn|]. split; [exact Hs|].
  unfold all_released. cbn [captures writers]. split.
  - repeat constructor.
  - constructor; [reflexivity|]. apply Forall_app. split.
    + eapply Forall_impl; [|exact Hpre]. now intros o [Ho _].
    + repeat constructor; assumption.
Qed.

Lemma main_synthesises_a_missing_input_witness :
  exists s' test_writer pre out_normal out_scaled,
    main {| env_source := fun _ => None; env_sink := Scenarios.any_codec |}
         no_drawing reference_imgproc
         (fun _ _ => Some (Scenarios.tiny_clip 1 [Scenarios.tiny_frame]))
         empty_session
    = (Done tt, s')
    /\ writers (world s') = test_writer :: pre ++ [out_normal; out_scaled]
    /\ wr_path test_writer = input_path
    /\ all_released (world s').
Proof.
  set (env := {| env_source := fun _ => None;
                 env_sink := Scenarios.any_codec |}).
  assert (Hsrc : env_source env input_path = None) by reflexivity.
  assert (Hsink : env_sink env input_path mp4v = true) by reflexivity.
  assert (Hc : codec_available env output_path_normal output_path_scaled
               = true) by reflexivity.
  destruct (main_synthesises_a_missing_input env no_drawing
              reference_imgproc
              (fun _ _ => Some (Scenarios.tiny_clip 1 [Scenarios.tiny_frame]))
              _ Hsrc Hsink (fun _ => eq_refl) Hc)
    as (s' & tw & pre & o1 & o2 & E & Hw & Hp & _ & _ & _ & Hr).
  exists s', tw, pre, o1, o2.
  split; [exact E|]. split; [exact Hw|]. split; [exact Hp | exact Hr].
Defined.

End MainFacts.

(* ================================================================== *)
(** * The fallback path                                                *)
(* ================================================================== *)

Module PathFacts.
Import Py.
Local Open Scope string_scope.

Lemma prefix_length a : forall b,
  String.prefix a b = true -> (String.length a <= String.length b)%nat.
Proof.
  induction a as [|x a IH]; intros [|y b] H;
    cbn [String.prefix String.length] in *; try lia; try discriminate.
  destruct (Ascii.ascii_dec x y); [|discriminate].
  apply IH in H. lia.
Qed.

Lemma length_append a b :
  String.length (a ++ b) = (String.length a + String.length b)%nat.
Proof. induction a as [|x a IH]; cbn; [reflexivity | now rewrite IH]. Qed.

Lemma append_assoc a b c : (a ++ b) ++ c = a ++ (b ++ c).
Proof. induction a as [|x a IH]; cbn; [reflexivity | now rewrite IH]. Qed.

(** A match of [.mp4] that starts inside [s] ends inside [s]: the dot
    occurs only at its head. *)
Lemma prefix_mp4_inside s :
  String.prefix ".mp4" (s ++ ".mp4") = String.prefix ".mp4" s
  \/ s = "".
Proof.
  destruct s as [|c0 s]; [now right|]. left.
  cbn [String.prefix append].
  destruct (Ascii.ascii_dec "." c0); [|reflexivity].
  destruct s as [|c1 s]; [reflexivity|]. cbn [String.prefix append].
  destruct (Ascii.ascii_dec "m" c1); [|reflexivity].
  destruct s as [|c2 s]; [reflexivity|]. cbn [String.prefix append].
  destruct (Ascii.ascii_dec "p" c2); [|reflexivity].
  destruct s as [|c3 s]; [reflexivity|]. cbn [String.prefix append].
  destruct (Ascii.ascii_dec "4" c3); [|reflexivity].
  now destruct s.
Qed.

Lemma replace_from_length : forall s skip,
  (skip <= String.length s)%nat ->
  String.length (replace_from ".mp4" ".avi" skip s)
  = (String.length s - skip)%nat.
Proof.
  induction s as [|c s IH]; intros skip Hskip.
  - cbn in *. lia.
  - destruct skip as [|k].
    + cbn [replace_from].
      destruct (String.prefix ".mp4" (String c s)) eqn:E.
      * apply prefix_length in E. cbn in E.
        rewrite length_append, IH by (cbn; lia). cbn. lia.
      * cbn. rewrite IH by lia. lia.
    + cbn [replace_from]. cbn in Hskip. rewrite IH by lia. cbn. lia.
Qed.

Lemma replace_from_suffix : forall s skip,
  (skip <= String.length s)%nat ->
  replace_from ".mp4" ".avi" skip (s ++ ".mp4")
  = replace_from ".mp4" ".avi" skip s ++ ".avi".
Proof.
  induction s as [|c s IH]; intros skip Hskip.
  - cbn in Hskip. assert (skip = 0)%nat by lia. subst. reflexivity.
  - destruct skip as [|k].
    + change (String c s ++ ".mp4") with (String c (s ++ ".mp4")).
      cbn [replace_from].
      change (String c (s ++ ".mp4")) with (String c s ++ ".mp4").
      destruct (prefix_mp4_inside (String c s)) as [-> | E];
        [|discriminate].
      destruct (String.prefix ".mp4" (String c s)) eqn:E.
      * apply prefix_length in E. cbn in E.
        rewrite IH by (cbn; lia). now rewrite append_assoc.
      * rewrite IH by lia. reflexivity.
    + cbn in Hskip. cbn [append replace_from]. apply IH. lia.
Qed.

Lemma replace_without_dot : forall s,
  ~ In "."%char (list_ascii_of_string s) ->
  replace s ".mp4" ".avi" = s.
Proof.
  unfold replace. induction s as [|c s IH]; intros Hdot; [reflexivity|].
  cbn [replace_from]. cbn in Hdot.
  assert (E : String.prefix ".mp4" (String c s) = false).
  { cbn [String.prefix].
    destruct (Ascii.ascii_dec "." c) as [<- | _]; [|reflexivity].
    exfalso. apply Hdot. now left. }
  rewrite E, IH; [reflexivity|]. intros H. apply Hdot. now right.
Qed.

(** X25.  The path handed to the fallback writer
    ([path.replace('.mp4', '.avi')]) has the length of the given path;
    a path ending in [.mp4] gets the ending [.avi]; a path without any
    dot is unchanged, so that the fallback writer is then opened on the
    very path on which the primary one failed. *)
Theorem fallback_path_shape :
  forall path : string,
    String.length (replace path ".mp4" ".avi") = String.length path
    /\ replace (path ++ ".mp4") ".mp4" ".avi"
       = replace path ".mp4" ".avi" ++ ".avi"
    /\ (~ In "."%char (list_ascii_of_string path) ->
        replace path ".mp4" ".avi" = path
        /\ replace (path ++ ".mp4") ".mp4" ".avi" = path ++ ".avi").
Proof.
  intros path. unfold replace. split.
  - rewrite replace_from_length by lia. lia.
  - split.
    + apply replace_from_suffix. lia.
    + intros Hdot. split.
      * now apply replace_without_dot.
      * rewrite replace_from_suffix by lia.
        fold (replace path ".mp4" ".avi").
        now rewrite replace_without_dot.
Qed.

Lemma fallback_path_shape_witness :
  replace ("clip" ++ ".mp4") ".mp4" ".avi" = "clip" ++ ".avi".
Proof.
  destruct (fallback_path_shape "clip") as (_ & _ & H).
  apply H. cbn. intros [E | [E | [E | [E | []]]]]; discriminate.
Defined.

End PathFacts.

(* ================================================================== *)
(** * Further edge cases                                               *)
(* ================================================================== *)

Module EdgeFacts.
Import Numpy Cv2 Py Contrast Outputs Exer3Script.
Import NumpyFacts RunFacts PipelineFacts CurveFacts TestVideoFacts.
Local Open Scope script_scope.

Lemma range_positive n :
  (0 < n)%Z -> exists rest, range n = 0%Z :: rest.
Proof.
  intros Hn. unfold range.
  destruct (Z.to_nat n) as [|m] eqn:E; [lia|].
  cbn [seq map]. now eexists.
Qed.

Lemma zeros_negative rows cols s :
  (rows < 0 \/ cols < 0)%Z -> zeros rows cols s = (Threw ValueError, s).
Proof.
  intros H. unfold zeros.
  destruct (rows <? 0)%Z eqn:Er; [reflexivity|].
  destruct (cols <? 0)%Z eqn:Ec; [reflexivity|]. lia.
Qed.

Lemma draw_loop_negative dr out size total_frames s :
  (fst size < 0 \/ snd size < 0)%Z -> (0 < total_frames)%Z ->
  draw_loop dr out size total_frames (range total_frames) s
  = (Threw ValueError, s).
Proof.
  intros Hneg Hpos. destruct (range_positive _ Hpos) as [rest ->].
  cbn [draw_loop]. unfold then_ at 1.
  rewrite zeros_negative by lia. reflexivity.
Qed.

(** X26.  A negative width or height with at least one frame to draw:
    [np.zeros] raises on the first frame, so [create_test_video] writes
    nothing, prints its error line and returns [None].  The writer it
    was about to use is not released by it: if it had opened, it is
    still open. *)
Theorem create_test_video_rejects_negative_size :
  forall (env : Env) (dr : Drawing) (output_path : string)
         (duration fps : Z) (size : Z * Z) (s : Session),
    (fst size < 0 \/ snd size < 0)%Z ->
    (0 < duration * fps)%Z ->
    let avi_path := replace output_path ".mp4" ".avi" in
    exists s',
      create_test_video env dr output_path duration fps size s
      = (Done None, s')
      /\ console s'
         = console s ++ [Line_creating_at output_path;
                         Line_error_creating ValueError]
      /\ captures (world s') = captures (world s)
      /\ writers (world s')
         = writers (world s)
           ++ (if env_sink env output_path mp4v
               then [Build_Writer output_path mp4v (IZR fps) size true
                       true []]
               else [Build_Writer output_path mp4v (IZR fps) size true
                       false [];
                     Build_Writer avi_path XVID (IZR fps) size true
                       (env_sink env avi_path XVID) []]).
Proof.
  intros env dr path duration fps size [[cs ws out] con] Hneg Hpos avi_path.
  unfold create_test_video.
  unfold then_ at 1, say. cbn [world console].
  unfold try_except.
  erewrite then_done by apply lift_VideoWriter.
  erewrite then_done by apply lift_isOpened.
  cbn [wr_opened].
  destruct (env_sink env path mp4v) eqn:Hsink; cbn [negb].
  - unfold then_ at 1, pure at 1. cbn [fst snd].
    unfold then_ at 1. rewrite draw_loop_negative by assumption.
    eexists. split; [reflexivity|].
    cbn [world console captures writers]. rewrite <- app_assoc.
    now repeat split.
  - fold avi_path.
    erewrite then_done.
    2:{ erewrite then_done by apply lift_release.
        erewrite then_done by apply lift_VideoWriter.
        reflexivity. }
    cbn [fst snd].
    unfold then_ at 1. rewrite draw_loop_negative by assumption.
    eexists. split; [reflexivity|].
    cbn [world console captures writers]. rewrite <- !app_assoc.
    now repeat split.
Qed.

Lemma create_test_video_rejects_negative_size_witness :
  exists s',
    create_test_video Scenarios.unwritable_env no_drawing
      "my_test_video.mp4" 5 30 (-640, 480)%Z empty_session
    = (Done None, s')
    /\ console s' = [Line_creating_at "my_test_video.mp4";
                     Line_error_creating ValueError].
Proof.
  destruct (create_test_video_rejects_negative_size
              Scenarios.unwritable_env no_drawing "my_test_video.mp4"
              5 30 (-640, 480)%Z empty_session)
    as (s' & E & Hc & _); [left; cbn; lia | lia |].
  exists s'. split; [exact E | exact Hc].
Defined.



Lemma angle_at_first final_angle total_frames :
  angle_at final_angle total_frames 0 = 0.
Proof.
  unfold angle_at, progress_at.
  destruct (total_frames >? 1)%Z; unfold Rdiv; ring.
Qed.

(** X28.  Every sweep starts at angle 0: whenever a run of
    [apply_gradual_rotation] writes a frame at all, the first frame of
    the normal output and the first frame of the scaled output are the
    first source frame, unchanged (frames of the reported size,
    resampler as contracted). *)
Theorem first_frame_is_not_rotated :
  forall (env : Env) (cv : Imgproc) (input_path pn ps : string)
         (final_angle : R) (v : Video) (frame : ColorFrame) rest,
    ImgprocContract cv ->
    env_source env input_path = Some v ->
    codec_available env pn ps = true ->
    (0 < video_frame_count v)%Z ->
    video_frames v = frame :: rest ->
    frame_dims frame (video_width v) (video_height v) ->
    exists w pre out_normal out_scaled,
      Exer3.run env cv input_path pn ps final_angle = (Returned true, w)
      /\ writers w = pre ++ [out_normal; out_scaled]
      /\ nth_error (wr_written out_normal) 0 = Some (Color frame)
      /\ nth_error (wr_written out_scaled) 0 = Some (Color frame).
Proof.
  intros env cv i pn ps fa v frame rest Hcv Hsrc Hc Hpos Hframes Hd.
  destruct (rotation_run_ok env cv i pn ps fa v Hsrc Hc)
    as (msgs & pre & o1 & o2 & E & _ & _ & _ & Hn & Hs).
  eexists. exists pre, o1, o2.
  split; [exact E|]. split; [reflexivity|].
  destruct (range_positive _ Hpos) as [idx Hr].
  rewrite Hn, Hs, Hframes, Hr.
  unfold normal_outputs, scaled_outputs.
  cbn [combine map nth_error fst snd].
  rewrite angle_at_first.
  destruct (rotate_by_zero cv _ _ frame Hcv Hd) as [Rn Rs].
  now rewrite Rn, Rs.
Qed.

Lemma first_frame_is_not_rotated_witness :
  exists w pre out_normal out_scaled,
    Exer3.run Scenarios.one_frame_env reference_imgproc Scenarios.input_path
              "normal.mp4" "scaled.mp4" 90 = (Returned true, w)
    /\ writers w = pre ++ [out_normal; out_scaled]
    /\ nth_error (wr_written out_normal) 0
       = Some (Color Scenarios.tiny_frame)
    /\ nth_error (wr_written out_scaled) 0
       = Some (Color Scenarios.tiny_frame).
Proof.
  assert (Hsrc : env_source Scenarios.one_frame_env Scenarios.input_path
                 = Some (Scenarios.tiny_clip 1 [Scenarios.tiny_frame]))
    by reflexivity.
  assert (Hc : codec_available Scenarios.one_frame_env
                 "normal.mp4" "scaled.mp4" = true) by reflexivity.
  apply (first_frame_is_not_rotated Scenarios.one_frame_env
           reference_imgproc Scenarios.input_path "normal.mp4" "scaled.mp4"
           90 _ Scenarios.tiny_frame []
           ReferenceFacts.reference_contract Hsrc Hc).
  - cbn. lia.
  - reflexivity.
  - exact tiny_frame_dims.
Defined.

End EdgeFacts.
